(** * Magento GraphQL documentation index: parser, ingestion and query layer

    A shallow embedding of [magento_graphql_docs_mcp] (parser.py, ingest.py,
    server.py, config.py) together with the properties of its specification.

    Conventions of the embedding
    - Python [str] values are [string]s; the text handled here is ASCII, so
      the character classes of [str.strip], [str.split] and of the [re]
      module ([\s], [\w], [\b]) are their ASCII parts.
    - Python [int] values that can be negative are [Z]; list indices and
      lengths are [nat].
    - [None] is [option]'s [None]; a raised exception is [Raise].
    - Third-party engines (the YAML front-matter reader, SHA-256, the
      ISO-8601 printer, SQLite's FTS5 ranking, the iteration order of a
      Python [set]) are parameters of the definitions that call them. *)

From Stdlib Require Import ZArith NArith Ascii String.
From stdpp Require Import base list strings gmap sets pretty sorting.

Local Open Scope Z_scope.

(** * Text primitives of the Python runtime *)

Module Py.

Definition code_between (lo hi : N) (c : ascii) : bool :=
  let n := N_of_ascii c in (N.leb lo n && N.leb n hi)%bool.

(** [str.isspace] on ASCII: TAB, LF, VT, FF, CR, FS, GS, RS, US, SPACE. *)
Definition is_space (c : ascii) : bool :=
  code_between 9 13 c || code_between 28 32 c.

Definition is_alpha (c : ascii) : bool :=
  code_between 65 90 c || code_between 97 122 c.

Definition is_digit (c : ascii) : bool := code_between 48 57 c.

(** The class [\w] of [re]. *)
Definition is_word (c : ascii) : bool :=
  is_alpha c || is_digit c || Ascii.eqb c "_".

Definition lower_char (c : ascii) : ascii :=
  if code_between 65 90 c then ascii_of_N (N_of_ascii c + 32) else c.

Fixpoint lower (s : string) : string :=
  match s with
  | EmptyString => EmptyString
  | String c s' => String (lower_char c) (lower s')
  end.

(** Truthiness of a [str]. *)
Definition nonempty (s : string) : bool :=
  match s with EmptyString => false | String _ _ => true end.

Fixpoint lstrip (s : string) : string :=
  match s with
  | EmptyString => EmptyString
  | String c s' => if is_space c then lstrip s' else s
  end.

Fixpoint rstrip (s : string) : string :=
  match s with
  | EmptyString => EmptyString
  | String c s' =>
      match rstrip s' with
      | EmptyString => if is_space c then EmptyString else String c EmptyString
      | r => String c r
      end
  end.

(** [s.strip()] *)
Definition strip (s : string) : string := lstrip (rstrip s).

(** [s.lstrip(x)] for a one-character argument. *)
Fixpoint lstrip_char (x : ascii) (s : string) : string :=
  match s with
  | EmptyString => EmptyString
  | String c s' => if Ascii.eqb c x then lstrip_char x s' else s
  end.

(** [s.startswith(p)] *)
Fixpoint startswith (p s : string) : bool :=
  match p, s with
  | EmptyString, _ => true
  | String _ _, EmptyString => false
  | String a p', String b s' => Ascii.eqb a b && startswith p' s'
  end.

(** [s[n:]] for [n >= 0]. *)
Fixpoint drop_chars (n : nat) (s : string) : string :=
  match n, s with
  | O, _ => s
  | S _, EmptyString => EmptyString
  | S n', String _ s' => drop_chars n' s'
  end.

(** [s[:n]] for [n >= 0]. *)
Fixpoint take_chars (n : nat) (s : string) : string :=
  match n, s with
  | O, _ => EmptyString
  | S _, EmptyString => EmptyString
  | S n', String c s' => String c (take_chars n' s')
  end.

(** [s.split(sep)] for a one-character separator: never empty. *)
Fixpoint split (sep : ascii) (s : string) : list string :=
  match s with
  | EmptyString => [EmptyString]
  | String c s' =>
      if Ascii.eqb c sep then EmptyString :: split sep s'
      else match split sep s' with
           | w :: ws => String c w :: ws
           | [] => [String c EmptyString]
           end
  end.

(** [s.split()]: the maximal runs of non-whitespace characters. *)
Fixpoint words_aux (cur : string) (s : string) : list string :=
  match s with
  | EmptyString => if nonempty cur then [cur] else []
  | String c s' =>
      if is_space c
      then (if nonempty cur then cur :: words_aux EmptyString s'
            else words_aux EmptyString s')
      else words_aux (cur +:+ String c EmptyString) s'
  end.

Definition words (s : string) : list string := words_aux EmptyString s.

(** [sep.join(parts)] *)
Definition join (sep : string) (parts : list string) : string :=
  String.concat sep parts.

(** [sub in s] *)
Fixpoint contains (sub s : string) : bool :=
  startswith sub s ||
  match s with
  | EmptyString => false
  | String _ s' => contains sub s'
  end.

(** [range(start, stop, -1)] *)
Definition range_down (start stop : Z) : list Z :=
  (fun k => start - k) <$> seqZ 0 (start - stop).

(** [xs[:k]] for any integer [k]: a negative bound counts from the end. *)
Definition slice_to {A} (k : Z) (xs : list A) : list A :=
  if 0 <=? k then take (Z.to_nat k) xs
  else take (length xs - Z.to_nat (- k)) xs.

End Py.

Definition LF : ascii := "010"%char.
Definition FENCE : string := "```".

(** * Entity model (parser.py) *)

Module CodeBlock.
Record t := mk {
  document_id : string;
  language : string;
  code : string;
  context : option string;
  line_number : nat
}.
End CodeBlock.

(** * Parser: fenced code blocks *)

Definition is_fence (line : string) : bool :=
  Py.startswith FENCE (Py.strip line).

Definition is_context_line (line : string) : bool :=
  Py.nonempty line && negb (Py.startswith "#" line).

(** The [for] loop of [extract_context]; returning [context_lines] early is
    the [break]. *)
Fixpoint context_loop (lines : list string) (idxs : list Z)
    (context_lines : list string) : list string :=
  match idxs with
  | [] => context_lines
  | i :: rest =>
      let line := Py.strip (nth (Z.to_nat i) lines EmptyString) in
      if is_context_line line
      then context_loop lines rest (line :: context_lines)
      else match context_lines with
           | _ :: _ => context_lines
           | [] => context_loop lines rest context_lines
           end
  end.

(** [extract_context(lines, start_idx)].  Every index of the range is
    non-negative; [extract_code_blocks] passes an index below [len(lines)],
    where [lines[i]] is defined. *)
Definition extract_context (lines : list string) (start_idx : Z)
    : option string :=
  if start_idx <? 0 then None
  else
    match context_loop lines
            (Py.range_down start_idx (Z.max (-1) (start_idx - 5))) [] with
    | [] => None
    | context_lines => Some (Py.join " " context_lines)
    end.

(** The inner [while]: the lines from index [i] up to the closing fence. *)
Fixpoint code_lines_from (rest : list string) : list string :=
  match rest with
  | [] => []
  | l :: rest' => if is_fence l then [] else l :: code_lines_from rest'
  end.

(** The outer [while i < len(lines)] of [extract_code_blocks]; each turn
    increases [i], so [len(lines) - i] turns are enough. *)
Fixpoint blocks_loop (fuel : nat) (doc_id : string) (lines : list string)
    (i : nat) : list CodeBlock.t :=
  match fuel with
  | O => []
  | S fuel' =>
      match lines !! i with
      | None => []
      | Some line =>
          if is_fence line then
            let language := Py.lower (Py.strip (Py.drop_chars 3 (Py.strip line))) in
            let language := if Py.nonempty language then language else "text" in
            let i1 := S i in
            let start_line := S i1 in
            let code_lines := code_lines_from (drop i1 lines) in
            let i2 := (i1 + length code_lines)%nat in
            let code := Py.join (String LF EmptyString) code_lines in
            let context := extract_context lines (Z.of_nat start_line - 2) in
            CodeBlock.mk doc_id language code context start_line
              :: blocks_loop fuel' doc_id lines (S i2)
          else blocks_loop fuel' doc_id lines (S i)
      end
  end.

Definition extract_code_blocks (markdown : string) (doc_id : string)
    : list CodeBlock.t :=
  let lines := Py.split LF markdown in
  blocks_loop (length lines) doc_id lines 0.

(** * Configuration constants (config.py) *)

(** Each constant is [int(os.environ.get(..., default))], so any integer. *)
Record Config := {
  DB_TOP_K : Z;
  MAX_FIELDS_PER_ELEMENT : Z;
  MAX_CODE_PREVIEW_LENGTH : Z;
  SEARCH_RESULT_MULTIPLIER : Z
}.

Definition default_config : Config :=
  {| DB_TOP_K := 5; MAX_FIELDS_PER_ELEMENT := 20;
     MAX_CODE_PREVIEW_LENGTH := 400; SEARCH_RESULT_MULTIPLIER := 2 |}.

(** [list(set(xs))]: the distinct members of [xs] in an order the language
    leaves open. *)
Record SetOrder := {
  set_list : list string → list string;
  set_list_perm : ∀ xs, set_list xs ≡ₚ remove_dups xs
}.

Definition canonical_order : SetOrder :=
  {| set_list := remove_dups; set_list_perm := λ xs, reflexivity _ |}.

(** The library functions the program calls and this development does not
    look into: [hashlib.sha256(..).hexdigest()], [datetime.isoformat()] of a
    POSIX timestamp, and the iteration order of sets. *)
Record Runtime := {
  sha256_hex : string → string;
  isoformat : Z → string;
  set_order : SetOrder
}.

(** A runtime to evaluate examples with: timestamps print in decimal. *)
Definition sample_runtime : Runtime :=
  {| sha256_hex := λ s, "sha256:" +:+ s;
     isoformat := λ t, pretty t;
     set_order := canonical_order |}.

(** * Parser: schema elements *)

Module GraphQLElement.
Record t := mk {
  document_id : string;
  element_type : string;
  name : string;
  fields : list string;
  parameters : list string;
  return_type : option string;
  description : option string;
  searchable_text : string
}.
End GraphQLElement.

(** The longest prefix of [s] whose characters satisfy [p], and what follows. *)
Fixpoint span_chars (p : ascii → bool) (s : string) : string * string :=
  match s with
  | EmptyString => (EmptyString, EmptyString)
  | String c s' =>
      if p c then let '(a, b) := span_chars p s' in (String c a, b)
      else (EmptyString, s)
  end.

(** The declaration pattern: the keyword, whitespace, then a captured run of
    word characters.  Anchored at the start of [s]: group 1.  Both
    repetitions are greedy and a shorter repetition is followed by a
    character of the class just left, so the anchored match is unique. *)
Definition match_decl_at (kw s : string) : option string :=
  if Py.startswith kw s then
    let '(ws, rest) := span_chars Py.is_space (Py.drop_chars (String.length kw) s) in
    let '(ident, _) := span_chars Py.is_word rest in
    if Py.nonempty ws && Py.nonempty ident then Some ident else None
  else None.

(** [re.search] of the declaration pattern: the leftmost match. *)
Fixpoint search_decl (kw s : string) : option string :=
  match match_decl_at kw s with
  | Some ident => Some ident
  | None =>
      match s with
      | EmptyString => None
      | String _ s' => search_decl kw s'
      end
  end.

Definition is_field_delim (c : ascii) : bool :=
  Ascii.eqb c "(" || Ascii.eqb c ":" || Ascii.eqb c "{".

(** [\b] before a word character: the previous character is not one. *)
Definition at_word_start (prev : option ascii) : bool :=
  match prev with
  | None => true
  | Some p => negb (Py.is_word p)
  end.

(** The field pattern of [extract_fields], case-insensitive: a word
    boundary, an identifier (a letter or underscore, then word characters),
    optional whitespace, and one of the delimiters.  Anchored at the start of
    [s], after the character [prev]: group 1 and the length of the match. *)
Definition match_field_at (prev : option ascii) (s : string)
    : option (string * nat) :=
  match s with
  | EmptyString => None
  | String c _ =>
      if at_word_start prev && (Py.is_alpha c || Ascii.eqb c "_") then
        let '(ident, rest) := span_chars Py.is_word s in
        let '(ws, rest') := span_chars Py.is_space rest in
        match rest' with
        | String d _ =>
            if is_field_delim d
            then Some (ident, S (String.length ident + String.length ws))
            else None
        | EmptyString => None
        end
      else None
  end.

(** [re.findall] of the field pattern: matches do not overlap, the scan
    resumes where a match ended ([skip] characters are still to be passed). *)
Fixpoint findall_fields (skip : nat) (prev : option ascii) (s : string)
    : list string :=
  match s with
  | EmptyString => []
  | String c s' =>
      match skip with
      | S k => findall_fields k (Some c) s'
      | O =>
          match match_field_at prev s with
          | Some (ident, len) => ident :: findall_fields (Nat.pred len) (Some c) s'
          | None => findall_fields 0 (Some c) s'
          end
      end
  end.

(** The parameter pattern of [extract_parameters]: a dollar sign, a captured
    run of word characters, optional whitespace, a colon. *)
Definition match_param_at (s : string) : option (string * nat) :=
  match s with
  | String "$" s' =>
      let '(ident, rest) := span_chars Py.is_word s' in
      let '(ws, rest') := span_chars Py.is_space rest in
      match rest' with
      | String ":" _ =>
          if Py.nonempty ident
          then Some (ident, S (S (String.length ident + String.length ws)))
          else None
      | _ => None
      end
  | _ => None
  end.

Fixpoint findall_params (skip : nat) (s : string) : list string :=
  match s with
  | EmptyString => []
  | String _ s' =>
      match skip with
      | S k => findall_params k s'
      | O =>
          match match_param_at s with
          | Some (ident, len) => ident :: findall_params (Nat.pred len) s'
          | None => findall_params 0 s'
          end
      end
  end.

Section Extraction.
Variable cfg : Config.
Variable rt : Runtime.

Definition extract_fields (code : string) : list string :=
  let fields := findall_fields 0 None code in
  Py.slice_to (MAX_FIELDS_PER_ELEMENT cfg) (set_list (set_order rt) fields).

Definition extract_parameters (code : string) : list string :=
  set_list (set_order rt) (findall_params 0 code).

Definition spaced (xs : list string) : string := Py.join " " xs.

(** One [if ..._match:] arm of [extract_graphql_elements]. *)
Definition detect (kw : string) (with_parameters : bool)
    (code doc_id : string) : list GraphQLElement.t :=
  match search_decl kw code with
  | None => []
  | Some name =>
      let fields := extract_fields code in
      let parameters :=
        if with_parameters then extract_parameters code else [] in
      let text :=
        kw +:+ " " +:+ name +:+ " " +:+ spaced fields +:+
        (if with_parameters then " " +:+ spaced parameters else "") in
      [GraphQLElement.mk doc_id kw name fields parameters None None text]
  end.

Definition extract_graphql_elements (code doc_id : string)
    : list GraphQLElement.t :=
  detect "query" true code doc_id ++
  detect "mutation" true code doc_id ++
  detect "type" false code doc_id ++
  detect "interface" false code doc_id.

End Extraction.

(** * Parser: documents *)

Module Document.
Record t := mk {
  id : string;
  file_path : string;
  title : string;
  description : option string;
  keywords : list string;
  category : string;
  subcategory : option string;
  content_type : string;
  searchable_text : string;
  headers : list string;
  last_modified : Z;
  content_md : string
}.
End Document.

(** Exceptions, as far as the [except] clauses of the program tell them
    apart. *)
Inductive exc :=
  | FileNotFoundError
  | StopIteration
  | OtherError (kind : string).

Inductive result (A : Type) :=
  | Ok (a : A)
  | Raise (e : exc).
Arguments Ok {A} a.
Arguments Raise {A} e.

(** A front-matter value as the YAML reader returns it: [None], a string, a
    list, or anything else (a number, a boolean, a date, a mapping), of which
    only the truth value matters here. *)
#[local] Set Warnings "-register-all".
Inductive yaml :=
  | YNull
  | YStr (s : string)
  | YList (l : list yaml)
  | YOther (truth : bool).

Definition truthy (v : yaml) : bool :=
  match v with
  | YNull => false
  | YStr s => Py.nonempty s
  | YList l => match l with [] => false | _ => true end
  | YOther b => b
  end.

(** What [frontmatter.loads] returns: the metadata dictionary and the body
    with the front matter removed. *)
Record Post := {
  metadata : gmap string yaml;
  content : string
}.

(** A file below the documentation root: the segments of its relative path,
    [st_mtime], and the result of reading and splitting it ([None] when that
    raises). *)
Record SourceFile := {
  sf_parts : list string;
  sf_mtime : Z;
  sf_post : option Post
}.

Definition rel_path_of (parts : list string) : string := Py.join "/" parts.

(** [extract_category_from_path], on the parts of the relative path. *)
Definition extract_category_from_path (parts : list string)
    : string * option string :=
  if decide (length parts = 1%nat) then ("root", None)
  else
    let category := nth 0 parts EmptyString in
    let subcategory :=
      if decide (2 < length parts)%nat then Some (nth 1 parts EmptyString)
      else None in
    (category, subcategory).

Definition determine_content_type (category rel_path : string) : string :=
  if decide (category = "schema") then "schema"
  else if decide (category = "tutorials") then "tutorial"
  else if decide (category = "develop" ∨ category = "usage") then "guide"
  else if Py.contains "reference" (Py.lower rel_path) then "reference"
  else "guide".

Definition is_header_line (line : string) : bool := Py.startswith "#" line.

Definition header_text (line : string) : string :=
  Py.strip (Py.lstrip_char "#" line).

Fixpoint first_header_in (lines : list string) : option string :=
  match lines with
  | [] => None
  | l :: rest =>
      let line := Py.strip l in
      if is_header_line line then Some (header_text line)
      else first_header_in rest
  end.

Definition extract_first_header (markdown : string) : option string :=
  first_header_in (Py.split LF markdown).

Fixpoint headers_in (lines : list string) : list string :=
  match lines with
  | [] => []
  | l :: rest =>
      let line := Py.strip l in
      if is_header_line line && Py.nonempty (header_text line)
      then header_text line :: headers_in rest
      else headers_in rest
  end.

Definition extract_headers (markdown : string) : list string :=
  headers_in (Py.split LF markdown).

(** [re.sub] for a pattern whose matches are never empty: [m] gives, for a
    match anchored at the start of its argument, the replacement and the
    length matched. *)
Fixpoint re_sub (m : string → option (string * nat)) (skip : nat)
    (s : string) : string :=
  match s with
  | EmptyString => EmptyString
  | String c s' =>
      match skip with
      | S k => re_sub m k s'
      | O =>
          match m s with
          | Some (repl, len) => repl +:+ re_sub m (Nat.pred len) s'
          | None => String c (re_sub m 0 s')
          end
      end
  end.

Fixpoint index_of (needle s : string) : option nat :=
  if Py.startswith needle s then Some O
  else match s with
       | EmptyString => None
       | String _ s' => S <$> index_of needle s'
       end.

(** A fence, the shortest text up to the next fence, and that fence. *)
Definition match_fenced_at (s : string) : option (string * nat) :=
  if Py.startswith FENCE s then
    k ← index_of FENCE (Py.drop_chars 3 s); Some (EmptyString, (6 + k)%nat)
  else None.

Definition not_char (x : ascii) (c : ascii) : bool := negb (Ascii.eqb c x).

(** A backquote, one or more characters that are not backquotes, a
    backquote. *)
Definition match_inline_code_at (s : string) : option (string * nat) :=
  match s with
  | String "`" s' =>
      let '(body, rest) := span_chars (not_char "`") s' in
      match rest with
      | String "`" _ =>
          if Py.nonempty body
          then Some (EmptyString, (2 + String.length body)%nat) else None
      | _ => None
      end
  | _ => None
  end.

(** A markdown link: the bracketed label is kept, the parenthesised target
    dropped. *)
Definition match_link_at (s : string) : option (string * nat) :=
  match s with
  | String "[" s' =>
      let '(label, rest) := span_chars (not_char "]") s' in
      match rest with
      | String "]" (String "(" rest') =>
          let '(url, rest'') := span_chars (not_char ")") rest' in
          match rest'' with
          | String ")" _ =>
              if Py.nonempty label && Py.nonempty url
              then Some (label, (4 + String.length label + String.length url)%nat)
              else None
          | _ => None
          end
      | _ => None
      end
  | _ => None
  end.

Definition clean_content (markdown : string) : string :=
  let content := re_sub match_fenced_at 0 markdown in
  let content := re_sub match_inline_code_at 0 content in
  let content := re_sub match_link_at 0 content in
  Py.join " " (Py.words content).

(** [" ".join(filter(None, parts))]: the falsy parts are dropped, and a part
    that is left and is not a string makes [join] raise [TypeError]. *)
Fixpoint strings_of (parts : list yaml) : result (list string) :=
  match parts with
  | [] => Ok []
  | YStr s :: rest =>
      match strings_of rest with
      | Ok ss => Ok (s :: ss)
      | Raise e => Raise e
      end
  | _ :: _ => Raise (OtherError "TypeError")
  end.

Definition join_truthy (parts : list yaml) : result string :=
  match strings_of (List.filter truthy parts) with
  | Ok ss => Ok (Py.join " " ss)
  | Raise e => Raise e
  end.

(** [build_searchable_text]; [parts.extend(keywords)] raises on a value that
    is not iterable. *)
Definition build_searchable_text (title description : yaml) (content : string)
    (keywords : yaml) (headers : list string) : result string :=
  let parts := [title] in
  let parts := if truthy description then parts ++ [description] else parts in
  match
    (if truthy keywords then
       match keywords with
       | YList l => Ok (parts ++ l)
       | _ => Raise (OtherError "TypeError")
       end
     else Ok parts)
  with
  | Raise e => Raise e
  | Ok parts =>
      let parts := parts ++ (YStr <$> headers) in
      let content_text := clean_content content in
      join_truthy (parts ++ [YStr content_text])
  end.

(** Validation of the [Document] model fields that come from front matter:
    [title: str], [description: Optional[str]], [keywords: List[str]]. *)
Definition as_str (v : yaml) : result string :=
  match v with
  | YStr s => Ok s
  | _ => Raise (OtherError "ValidationError")
  end.

Definition as_optional_str (v : yaml) : result (option string) :=
  match v with
  | YNull => Ok None
  | YStr s => Ok (Some s)
  | _ => Raise (OtherError "ValidationError")
  end.

Definition as_str_list (v : yaml) : result (list string) :=
  match v with
  | YList l =>
      match strings_of l with
      | Ok ss => Ok ss
      | Raise _ => Raise (OtherError "ValidationError")
      end
  | _ => Raise (OtherError "ValidationError")
  end.

Definition bind {A B} (r : result A) (k : A → result B) : result B :=
  match r with
  | Ok a => k a
  | Raise e => Raise e
  end.

Notation "'let*' x ':=' r 'in' k" := (bind r (λ x, k))
  (at level 10, x name, r at level 100, k at level 200).

Section Parser.
Variable cfg : Config.
Variable rt : Runtime.

Definition parse_file (f : SourceFile) : result Document.t :=
  match sf_post f with
  | None => Raise (OtherError "OSError")
  | Some post =>
      let markdown_content := content post in
      let last_modified := sf_mtime f in
      let rel_path := rel_path_of (sf_parts f) in
      let doc_id := sha256_hex rt rel_path in
      let '(category, subcategory) := extract_category_from_path (sf_parts f) in
      let content_type := determine_content_type category rel_path in
      let title :=
        match metadata post !! "title" with
        | Some v => v
        | None =>
            match extract_first_header markdown_content with
            | Some h => if Py.nonempty h then YStr h else YStr rel_path
            | None => YStr rel_path
            end
        end in
      let description := default YNull (metadata post !! "description") in
      let keywords :=
        match metadata post !! "keywords" with
        | None => YList []
        | Some (YStr s) => YList [YStr s]
        | Some v => v
        end in
      let headers := extract_headers markdown_content in
      let* searchable_text :=
        build_searchable_text title description markdown_content keywords headers in
      let* title := as_str title in
      let* description := as_optional_str description in
      let* keywords := as_str_list keywords in
      Ok (Document.mk doc_id rel_path title description keywords category
            subcategory content_type searchable_text headers last_modified
            markdown_content)
  end.

(** The [for] loop of [parse_all]: a file whose parsing raises is skipped. *)
Fixpoint parse_files (files : list SourceFile)
    : list Document.t * list CodeBlock.t * list GraphQLElement.t :=
  match files with
  | [] => ([], [], [])
  | f :: rest =>
      let '(documents, all_code_blocks, all_graphql_elements) := parse_files rest in
      match parse_file f with
      | Raise _ => (documents, all_code_blocks, all_graphql_elements)
      | Ok doc =>
          let code_blocks :=
            extract_code_blocks (Document.content_md doc) (Document.id doc) in
          let elements :=
            List.concat
              ((λ block, extract_graphql_elements cfg rt
                           (CodeBlock.code block) (Document.id doc))
                 <$> List.filter
                       (λ block, String.eqb (CodeBlock.language block) "graphql")
                       code_blocks) in
          (doc :: documents, code_blocks ++ all_code_blocks,
           elements ++ all_graphql_elements)
      end
  end.

Definition is_md (f : SourceFile) : bool :=
  match last (sf_parts f) with
  | Some name => Py.startswith "dm." (String.rev name)
  | None => false
  end.

(** [rglob] for the [.md] files below the root. *)
Definition walk_directory (files : list SourceFile) : list SourceFile :=
  List.filter is_md files.

Definition parse_all (files : list SourceFile)
    : list Document.t * list CodeBlock.t * list GraphQLElement.t :=
  parse_files (walk_directory files).

End Parser.

(** * Index store (the SQLite database of ingest.py) *)

Module DocRow.
(** A row of [documents].  The JSON columns are held decoded: the column
    text is [json.dumps] of the list and [json.loads] gives the list back. *)
Record t := mk {
  id : string;
  file_path : string;
  title : string;
  description : option string;
  keywords : list string;
  category : string;
  subcategory : option string;
  content_type : string;
  searchable_text : string;
  headers : list string;
  last_modified : string;
  content_md : string
}.
End DocRow.

Module MetaRow.
Record t := mk {
  docs_directory_mtime : string;
  total_files : nat;
  ingestion_time : string
}.
End MetaRow.

(** The tables; [None] is a table that does not exist.  [metadata] is keyed
    by its primary key; the integer keys SQLite assigns to code blocks and
    elements are read by no query and left out.  The two full-text tables
    mirror [searchable_text] through triggers, so only their existence is
    state. *)
Record Store := {
  t_metadata : option (gmap string MetaRow.t);
  t_documents : option (list DocRow.t);
  t_code_blocks : option (list CodeBlock.t);
  t_graphql_elements : option (list GraphQLElement.t);
  t_documents_fts : bool;
  t_graphql_elements_fts : bool
}.

Definition empty_store : Store :=
  {| t_metadata := None; t_documents := None; t_code_blocks := None;
     t_graphql_elements := None; t_documents_fts := false;
     t_graphql_elements_fts := false |}.

Definition with_metadata (v : option (gmap string MetaRow.t)) (st : Store) : Store :=
  {| t_metadata := v; t_documents := t_documents st;
     t_code_blocks := t_code_blocks st;
     t_graphql_elements := t_graphql_elements st;
     t_documents_fts := t_documents_fts st;
     t_graphql_elements_fts := t_graphql_elements_fts st |}.

Definition with_documents (v : option (list DocRow.t)) (st : Store) : Store :=
  {| t_metadata := t_metadata st; t_documents := v;
     t_code_blocks := t_code_blocks st;
     t_graphql_elements := t_graphql_elements st;
     t_documents_fts := t_documents_fts st;
     t_graphql_elements_fts := t_graphql_elements_fts st |}.

Definition with_code_blocks (v : option (list CodeBlock.t)) (st : Store) : Store :=
  {| t_metadata := t_metadata st; t_documents := t_documents st;
     t_code_blocks := v;
     t_graphql_elements := t_graphql_elements st;
     t_documents_fts := t_documents_fts st;
     t_graphql_elements_fts := t_graphql_elements_fts st |}.

Definition with_graphql_elements (v : option (list GraphQLElement.t)) (st : Store) : Store :=
  {| t_metadata := t_metadata st; t_documents := t_documents st;
     t_code_blocks := t_code_blocks st;
     t_graphql_elements := v;
     t_documents_fts := t_documents_fts st;
     t_graphql_elements_fts := t_graphql_elements_fts st |}.

Definition with_documents_fts (v : bool) (st : Store) : Store :=
  {| t_metadata := t_metadata st; t_documents := t_documents st;
     t_code_blocks := t_code_blocks st;
     t_graphql_elements := t_graphql_elements st;
     t_documents_fts := v;
     t_graphql_elements_fts := t_graphql_elements_fts st |}.

Definition with_graphql_elements_fts (v : bool) (st : Store) : Store :=
  {| t_metadata := t_metadata st; t_documents := t_documents st;
     t_code_blocks := t_code_blocks st;
     t_graphql_elements := t_graphql_elements st;
     t_documents_fts := t_documents_fts st;
     t_graphql_elements_fts := v |}.

(** The metadata record, if the table and the row exist. *)
Definition last_ingestion (st : Store) : option MetaRow.t :=
  tbl ← t_metadata st; tbl !! "last_ingestion".

Definition row_count {A} (tbl : option (list A)) : nat :=
  match tbl with
  | Some rows => length rows
  | None => O
  end.

(** * Ingestion coordinator (ingest.py) *)

(** The operations of a re-ingest that reach outside the process.  Any of
    them can fail for reasons the program does not control (I/O, the
    database); [Faults] says which do, and with what exception. *)
Inductive step :=
  | CreateMetadata | CreateDocuments | CreateCodeBlocks | CreateElements
  | EnableFtsDocuments | EnableFtsElements
  | WalkDirectory | ParseAll
  | DeleteCodeBlocks | DeleteElements | DeleteDocuments
  | InsertDocuments | InsertCodeBlocks | InsertElements
  | ScanMtime | UpsertMetadata.

Inductive phase := SchemaCreation | Parsing | BulkInsertion | MetadataUpdate.

Definition phase_of (s : step) : phase :=
  match s with
  | CreateMetadata | CreateDocuments | CreateCodeBlocks | CreateElements
  | EnableFtsDocuments | EnableFtsElements => SchemaCreation
  | WalkDirectory | ParseAll => Parsing
  | DeleteCodeBlocks | DeleteElements | DeleteDocuments
  | InsertDocuments | InsertCodeBlocks | InsertElements => BulkInsertion
  | ScanMtime | UpsertMetadata => MetadataUpdate
  end.

Definition Faults := step → option exc.

Definition no_faults : Faults := λ _, None.

(** Stateful code: the store is threaded through, and survives a raise. *)
Definition M (A : Type) : Type := Store → result A * Store.

Definition ret {A} (a : A) : M A := λ st, (Ok a, st).

Definition raise {A} (e : exc) : M A := λ st, (Raise e, st).

Definition bindM {A B} (m : M A) (k : A → M B) : M B :=
  λ st, match m st with
        | (Ok a, st') => k a st'
        | (Raise e, st') => (Raise e, st')
        end.

Definition get_store : M Store := λ st, (Ok st, st).

Definition modify (f : Store → Store) : M unit := λ st, (Ok tt, f st).

Notation "m1 ;;; m2" := (bindM m1 (λ _, m2))
  (at level 100, m2 at level 200, right associativity).

Definition when (b : bool) (m : M unit) : M unit := if b then m else ret tt.

(** [try: body except FileNotFoundError: handler]; any other exception
    passes through (the second [except] clause re-raises). *)
Definition try_except_file_not_found (body handler : M unit) : M unit :=
  λ st, match body st with
        | (Raise FileNotFoundError, st') => handler st'
        | r => r
        end.

Definition is_none {A} (o : option A) : bool :=
  match o with None => true | Some _ => false end.

(** [max((f.stat().st_mtime for f in docs_dir.rglob(..)), default=0)] *)
Definition latest_mtime (md_files : list SourceFile) : Z :=
  match md_files with
  | [] => 0
  | f :: rest => foldr Z.max (sf_mtime f) (sf_mtime <$> rest)
  end.

Section Ingest.
Variable cfg : Config.
Variable rt : Runtime.
Variable faults : Faults.

Definition attempt (s : step) : M unit :=
  match faults s with
  | Some e => raise e
  | None => ret tt
  end.

(** [should_reingest]; [docs] is [None] when the directory does not
    exist. *)
Definition should_reingest (db : Store) (docs : option (list SourceFile))
    : bool :=
  match docs with
  | None => false
  | Some files =>
      let latest_mtime_iso := isoformat rt (latest_mtime (walk_directory files)) in
      match t_metadata db with
      | None => true
      | Some tbl =>
          match tbl !! "last_ingestion" with
          | None => true
          | Some metadata =>
              if decide (MetaRow.docs_directory_mtime metadata = latest_mtime_iso)
              then false else true
          end
      end
  end.

Definition create_tables : M unit :=
  bindM get_store (λ db,
    when (is_none (t_metadata db))
      (attempt CreateMetadata ;;; modify (with_metadata (Some ∅)))) ;;;
  bindM get_store (λ db,
    when (is_none (t_documents db))
      (attempt CreateDocuments ;;; modify (with_documents (Some [])))) ;;;
  bindM get_store (λ db,
    when (is_none (t_code_blocks db))
      (attempt CreateCodeBlocks ;;; modify (with_code_blocks (Some [])))) ;;;
  bindM get_store (λ db,
    when (is_none (t_graphql_elements db))
      (attempt CreateElements ;;; modify (with_graphql_elements (Some [])))) ;;;
  bindM get_store (λ db,
    when (negb (t_documents_fts db))
      (attempt EnableFtsDocuments ;;; modify (with_documents_fts true))) ;;;
  bindM get_store (λ db,
    when (negb (t_graphql_elements_fts db))
      (attempt EnableFtsElements ;;; modify (with_graphql_elements_fts true))).

(** [table.delete_where()]: every row goes; SQLite refuses a table that
    does not exist. *)
Definition delete_where {A} (s : step) (tbl : Store → option (list A))
    (set : option (list A) → Store → Store) : M unit :=
  attempt s ;;;
  bindM get_store (λ db,
    match tbl db with
    | None => raise (OtherError "OperationalError")
    | Some _ => modify (set (Some []))
    end).

(** [table.insert_all(records)]: appends, creating the table when it is
    absent. *)
Definition insert_all {A} (s : step) (tbl : Store → option (list A))
    (set : option (list A) → Store → Store) (records : list A) : M unit :=
  attempt s ;;;
  bindM get_store (λ db, modify (set (Some (default [] (tbl db) ++ records)))).

Definition doc_record (doc : Document.t) : DocRow.t :=
  DocRow.mk (Document.id doc) (Document.file_path doc) (Document.title doc)
    (Document.description doc) (Document.keywords doc)
    (Document.category doc) (Document.subcategory doc)
    (Document.content_type doc) (Document.searchable_text doc)
    (Document.headers doc) (isoformat rt (Document.last_modified doc))
    (Document.content_md doc).

(** [documents] has primary key [id]: a repeated key makes the insert
    fail. *)
Definition insert_documents (records : list DocRow.t) : M unit :=
  bindM get_store (λ db,
    if decide (NoDup (DocRow.id <$> (default [] (t_documents db) ++ records)))
    then insert_all InsertDocuments t_documents with_documents records
    else attempt InsertDocuments ;;; raise (OtherError "IntegrityError")).

Definition nonempty_list {A} (l : list A) : bool :=
  match l with [] => false | _ => true end.

Definition ingest_data (files : list SourceFile) : M unit :=
  attempt ParseAll ;;;
  let '(documents, code_blocks, graphql_elements) := parse_all cfg rt files in
  delete_where DeleteCodeBlocks t_code_blocks with_code_blocks ;;;
  delete_where DeleteElements t_graphql_elements with_graphql_elements ;;;
  delete_where DeleteDocuments t_documents with_documents ;;;
  let doc_records := doc_record <$> documents in
  when (nonempty_list doc_records) (insert_documents doc_records) ;;;
  when (nonempty_list code_blocks)
    (insert_all InsertCodeBlocks t_code_blocks with_code_blocks code_blocks) ;;;
  when (nonempty_list graphql_elements)
    (insert_all InsertElements t_graphql_elements with_graphql_elements
       graphql_elements).

(** [update_metadata]; [now] is [datetime.now(timezone.utc).isoformat()].
    The upsert creates the table when it is absent. *)
Definition update_metadata (files : list SourceFile) (total_files : nat)
    (now : string) : M unit :=
  attempt ScanMtime ;;;
  let latest_mtime_iso := isoformat rt (latest_mtime (walk_directory files)) in
  attempt UpsertMetadata ;;;
  modify (λ db,
    with_metadata
      (Some (<["last_ingestion" := MetaRow.mk latest_mtime_iso total_files now]>
               (default ∅ (t_metadata db)))) db).

(** [ingest_graphql_docs], on the database [DB_PATH] and the directory
    [DOCS_PATH]. *)
Definition ingest_graphql_docs (docs : option (list SourceFile))
    (now : string) : M unit :=
  bindM get_store (λ db,
    if negb (should_reingest db docs) then ret tt
    else
      create_tables ;;;
      match docs with
      | None => raise FileNotFoundError
      | Some files =>
          try_except_file_not_found
            (attempt WalkDirectory ;;;
             let total_files := length (walk_directory files) in
             ingest_data files ;;;
             update_metadata files total_files now)
            (ret tt)
      end).

End Ingest.

(** * Query layer (server.py) *)

Definition DQUOTE : ascii := "034"%char.

Definition hex_digit (n : N) : ascii :=
  if (n <? 10)%N then ascii_of_N (48 + n) else ascii_of_N (87 + n).

(** One character of a JSON string as [json.dumps] writes it. *)
Definition json_escape_char (c : ascii) : string :=
  let n := N_of_ascii c in
  if Ascii.eqb c DQUOTE then String "\" (String DQUOTE EmptyString)
  else if Ascii.eqb c "\" then "\\"
  else if Ascii.eqb c "010" then "\n"
  else if Ascii.eqb c "013" then "\r"
  else if Ascii.eqb c "009" then "\t"
  else if Ascii.eqb c "008" then "\b"
  else if Ascii.eqb c "012" then "\f"
  else if (n <? 32)%N
       then "\u00" +:+ String (hex_digit (n / 16)) (String (hex_digit (n mod 16)) EmptyString)
  else String c EmptyString.

Fixpoint json_escape (s : string) : string :=
  match s with
  | EmptyString => EmptyString
  | String c s' => json_escape_char c +:+ json_escape s'
  end.

Definition json_string (s : string) : string :=
  String DQUOTE (json_escape s +:+ String DQUOTE EmptyString).

(** [json.dumps] of a list of strings: the text of a [_json] column. *)
Definition json_dumps (xs : list string) : string :=
  "[" +:+ Py.join ", " (json_string <$> xs) +:+ "]".

(** SQLite's [LIKE]: [%] stands for any text, [_] for any character, and
    ASCII letters compare without case. *)
Fixpoint sql_like (pattern subject : string) : bool :=
  match pattern with
  | EmptyString => negb (Py.nonempty subject)
  | String "%" p' =>
      (fix any (s : string) : bool :=
         sql_like p' s ||
         match s with
         | EmptyString => false
         | String _ s' => any s'
         end) subject
  | String "_" p' =>
      match subject with
      | String _ s' => sql_like p' s'
      | EmptyString => false
      end
  | String c p' =>
      match subject with
      | String d s' =>
          Ascii.eqb (Py.lower_char c) (Py.lower_char d) && sql_like p' s'
      | EmptyString => false
      end
  end.

(** [column = ?] on a nullable column: a comparison with NULL selects
    nothing. *)
Definition sql_eq (column param : option string) : bool :=
  match column, param with
  | Some a, Some b => String.eqb a b
  | _, _ => false
  end.

(** [str(x)] of an optional text inside an f-string. *)
Definition py_str (o : option string) : string := default "None" o.

(** Truthiness of an optional text argument or column. *)
Definition truthy_opt (o : option string) : bool :=
  match o with
  | Some s => Py.nonempty s
  | None => false
  end.

(** A filter argument that is given: neither [None] nor the empty text. *)
Definition filter_if {A} (arg : option string) (keep : string → A → bool)
    (results : list A) : list A :=
  match arg with
  | Some v => if Py.nonempty v then List.filter (keep v) results else results
  | None => results
  end.

(** [db.query(..)] on [documents]; a missing table is an SQLite error. *)
Definition select_documents (db : Store) (where_ : DocRow.t → bool)
    : result (list DocRow.t) :=
  match t_documents db with
  | Some rows => Ok (List.filter where_ rows)
  | None => Raise (OtherError "OperationalError")
  end.

(** [.__next__()] on a cursor. *)
Definition next_row {A} (rows : list A) : result A :=
  match rows with
  | r :: _ => Ok r
  | [] => Raise StopIteration
  end.

Definition LFs : string := String LF EmptyString.

Section Server.
Variable cfg : Config.
Variable rt : Runtime.

(** [db["documents"].search(query, limit=..)]: the FTS5 engine, which
    ranks the rows of [documents] that match. *)
Variable fts_search : list DocRow.t → string → Z → result (list DocRow.t).

(** The list [results] of [search_documentation] when formatting starts. *)
Definition search_results (db : Store) (queries : list string)
    (category subcategory content_type : option string)
    : result (list DocRow.t) :=
  let combined_query := Py.join " OR " ((λ q, "(" +:+ q +:+ ")") <$> queries) in
  match t_documents db, t_documents_fts db with
  | Some rows, true =>
      let* results :=
        fts_search rows combined_query
          (DB_TOP_K cfg * SEARCH_RESULT_MULTIPLIER cfg) in
      let results :=
        filter_if category (λ v r, String.eqb (DocRow.category r) v) results in
      let results :=
        filter_if subcategory
          (λ v r, bool_decide (DocRow.subcategory r = Some v)) results in
      let results :=
        filter_if content_type
          (λ v r, String.eqb (DocRow.content_type r) v) results in
      Ok (Py.slice_to (DB_TOP_K cfg) results)
  | _, _ => Raise (OtherError "OperationalError")
  end.

Definition format_search_result (doc : DocRow.t) : string :=
  let excerpt :=
    if truthy_opt (DocRow.description doc)
    then py_str (DocRow.description doc)
    else Py.take_chars 200 (DocRow.content_md doc) in
  "### " +:+ DocRow.title doc +:+ LFs +:+
  "**Path:** " +:+ DocRow.file_path doc +:+ LFs +:+
  "**Category:** " +:+ DocRow.category doc +:+ "/" +:+
    py_str (DocRow.subcategory doc) +:+ LFs +:+
  "**Type:** " +:+ DocRow.content_type doc +:+ LFs +:+
  "**Description:** " +:+ excerpt +:+ "..." +:+ LFs.

Definition search_documentation (db : Store) (queries : list string)
    (category subcategory content_type : option string) : result string :=
  let* results := search_results db queries category subcategory content_type in
  match results with
  | [] => Ok "No matching documentation found."
  | _ =>
      Ok (Py.join (LFs +:+ "---" +:+ LFs +:+ LFs)
            (format_search_result <$> results))
  end.

Definition by_file_path (file_path : string) (r : DocRow.t) : bool :=
  String.eqb (DocRow.file_path r) file_path.

Definition get_document (db : Store) (file_path : string) : result string :=
  let* rows := select_documents db (by_file_path file_path) in
  match next_row rows with
  | Raise StopIteration =>
      Ok ("Document not found: " +:+ file_path +:+ LFs +:+ LFs +:+
          "Tip: Use search_documentation to find the correct file path.")
  | Raise e => Raise e
  | Ok doc =>
      let keywords := DocRow.keywords doc in
      let keywords_str :=
        match keywords with
        | [] => "None"
        | _ => Py.join ", " keywords
        end in
      let lines :=
        ["# " +:+ DocRow.title doc;
         "";
         "**Path:** " +:+ DocRow.file_path doc;
         "**Category:** " +:+ DocRow.category doc +:+ "/" +:+
           py_str (DocRow.subcategory doc);
         "**Type:** " +:+ DocRow.content_type doc;
         "**Keywords:** " +:+ keywords_str;
         ""] in
      let lines :=
        if truthy_opt (DocRow.description doc)
        then lines ++ ["**Description:** " +:+ py_str (DocRow.description doc); ""]
        else lines in
      Ok (Py.join LFs (lines ++ ["---"; ""; DocRow.content_md doc]))
  end.

(** Branch 1 of [get_related_documents]: same category and subcategory. *)
Definition related_by_category (db : Store) (source_doc : DocRow.t)
    (file_path : string) : result (list DocRow.t) :=
  let* rows :=
    select_documents db
      (λ r, sql_eq (Some (DocRow.category r)) (Some (DocRow.category source_doc))
            && sql_eq (DocRow.subcategory r) (DocRow.subcategory source_doc)
            && negb (String.eqb (DocRow.file_path r) file_path)) in
  Ok (take 5 rows).

Definition keyword_matches (db : Store) (keyword file_path : string)
    : result (list DocRow.t) :=
  let* rows :=
    select_documents db
      (λ r, sql_like ("%" +:+ keyword +:+ "%") (json_dumps (DocRow.keywords r))
            && negb (String.eqb (DocRow.file_path r) file_path)) in
  Ok (take 3 rows).

Fixpoint keyword_loop (db : Store) (keywords : list string)
    (file_path : string) : result (list DocRow.t) :=
  match keywords with
  | [] => Ok []
  | keyword :: rest =>
      let* matches := keyword_matches db keyword file_path in
      let* others := keyword_loop db rest file_path in
      Ok (matches ++ others)
  end.

(** Branch 2: documents whose keyword list mentions one of the first three
    keywords of the source. *)
Definition related_by_keywords (db : Store) (source_doc : DocRow.t)
    (file_path : string) : result (list DocRow.t) :=
  let source_keywords := set_list (set_order rt) (DocRow.keywords source_doc) in
  keyword_loop db (take 3 source_keywords) file_path.

(** The deduplication loop, with its [seen] set. *)
Fixpoint dedup_loop (seen : gset string) (docs : list DocRow.t)
    : list DocRow.t :=
  match docs with
  | [] => []
  | doc :: rest =>
      if decide (DocRow.file_path doc ∈ seen) then dedup_loop seen rest
      else doc :: dedup_loop ({[DocRow.file_path doc]} ∪ seen) rest
  end.

Definition combine_related (by_category by_keywords : list DocRow.t)
    : list DocRow.t :=
  take 5 (dedup_loop ∅ (by_category ++ by_keywords)).

Definition relationship (source_doc doc : DocRow.t) : string :=
  if String.eqb (DocRow.category doc) (DocRow.category source_doc)
  then "Same category" else "Similar content".

Definition format_related (source_doc doc : DocRow.t) : list string :=
  ["### " +:+ DocRow.title doc;
   "**Path:** " +:+ DocRow.file_path doc;
   "**Relationship:** " +:+ relationship source_doc doc;
   "**Category:** " +:+ DocRow.category doc +:+ "/" +:+
     py_str (DocRow.subcategory doc)] ++
  (if truthy_opt (DocRow.description doc)
   then ["**Description:** " +:+
         Py.take_chars 150 (py_str (DocRow.description doc)) +:+ "..."]
   else []) ++
  [""].

(** What [get_related_documents] has found when formatting starts: the
    source row and the list [all_related], or [None] when the path is not
    stored. *)
Definition related_documents (db : Store) (file_path : string)
    : result (option (DocRow.t * list DocRow.t)) :=
  let* rows := select_documents db (by_file_path file_path) in
  match next_row rows with
  | Raise StopIteration => Ok None
  | Raise e => Raise e
  | Ok source_doc =>
      let* by_category := related_by_category db source_doc file_path in
      let* by_keywords := related_by_keywords db source_doc file_path in
      Ok (Some (source_doc, combine_related by_category by_keywords))
  end.

Definition get_related_documents (db : Store) (file_path : string)
    : result string :=
  let* found := related_documents db file_path in
  match found with
  | None => Ok ("Document not found: " +:+ file_path)
  | Some (source_doc, all_related) =>
      match all_related with
      | [] => Ok ("No related documents found for: " +:+ file_path)
      | _ =>
          Ok (Py.join LFs
                (["# Related Documents for: " +:+ DocRow.title source_doc; ""]
                 ++ List.concat (format_related source_doc <$> all_related)))
      end
  end.

End Server.

(** * Query layer, continued: elements, tutorials and examples *)

Definition upper_char (c : ascii) : ascii :=
  if Py.code_between 97 122 c then ascii_of_N (N_of_ascii c - 32) else c.

(** [s.title()]: a letter that follows a letter is lowered, any other letter
    is raised. *)
Fixpoint title_from (previous_is_cased : bool) (s : string) : string :=
  match s with
  | EmptyString => EmptyString
  | String c s' =>
      String (if Py.is_alpha c
              then (if previous_is_cased then Py.lower_char c else upper_char c)
              else c)
             (title_from (Py.is_alpha c) s')
  end.

Definition str_title (s : string) : string := title_from false s.

(** [s[:k]] on a text, for any integer [k]. *)
Definition slice_chars_to (k : Z) (s : string) : string :=
  if 0 <=? k then Py.take_chars (Z.to_nat k) s
  else Py.take_chars (String.length s - Z.to_nat (- k)) s.

(** [db.query("SELECT * FROM t WHERE ..")] on any table. *)
Definition select_rows {A} (tbl : option (list A)) (where_ : A → bool)
    : result (list A) :=
  match tbl with
  | Some rows => Ok (List.filter where_ rows)
  | None => Raise (OtherError "OperationalError")
  end.

(** The code blocks of one document in the given languages, up to [limit]. *)
Definition example_blocks (db : Store) (document_id : string)
    (languages : list string) (limit : nat) : result (list CodeBlock.t) :=
  let* rows :=
    select_rows (t_code_blocks db)
      (λ b, String.eqb (CodeBlock.document_id b) document_id
            && bool_decide (CodeBlock.language b ∈ languages)) in
  Ok (take limit rows).

(** The first document with the given key, [None] when there is none. *)
Definition document_by_id (db : Store) (document_id : string)
    : result (option DocRow.t) :=
  let* rows :=
    select_documents db (λ d, String.eqb (DocRow.id d) document_id) in
  Ok (head rows).

Definition or_none (xs : list string) : string :=
  match xs with
  | [] => "None"
  | _ => Py.join ", " xs
  end.

Definition ENTRY_SEPARATOR : string := LFs +:+ "---" +:+ LFs +:+ LFs.

(** ** [get_tutorial] *)

Definition tutorial_where (tutorial_name : string) (r : DocRow.t) : bool :=
  String.eqb (DocRow.category r) "tutorials"
  && (sql_eq (DocRow.subcategory r) (Some tutorial_name)
      || sql_like ("tutorials/" +:+ tutorial_name +:+ "%") (DocRow.file_path r)).

(** [ORDER BY file_path]: the order of the texts, character code by
    character code. *)
Definition path_le (a b : DocRow.t) : Prop :=
  String.le (DocRow.file_path a) (DocRow.file_path b).

#[global] Instance path_le_dec : RelDecision path_le :=
  λ a b, String.le_dec (DocRow.file_path a) (DocRow.file_path b).

Fixpoint tutorial_steps_loop (db : Store) (docs : list DocRow.t)
    : result (list (DocRow.t * list CodeBlock.t)) :=
  match docs with
  | [] => Ok []
  | doc :: rest =>
      let* code_blocks :=
        example_blocks db (DocRow.id doc) ["graphql"; "json"] 2 in
      let* others := tutorial_steps_loop db rest in
      Ok ((doc, code_blocks) :: others)
  end.

(** The steps of a tutorial with their code examples, as [get_tutorial]
    lists them. *)
Definition tutorial_steps (db : Store) (tutorial_name : string)
    : result (list (DocRow.t * list CodeBlock.t)) :=
  let* docs := select_documents db (tutorial_where tutorial_name) in
  tutorial_steps_loop db (merge_sort path_le docs).

Definition format_code_block (block : CodeBlock.t) : list string :=
  [FENCE +:+ CodeBlock.language block; CodeBlock.code block; FENCE; ""].

(** The lines of step [i] (counted from zero here, from one in the text). *)
Definition format_step (i : nat) (step : DocRow.t * list CodeBlock.t)
    : list string :=
  ["## Step " +:+ pretty (S i) +:+ ": " +:+ DocRow.title step.1;
   "";
   "**File:** " +:+ DocRow.file_path step.1;
   ""] ++
  (if truthy_opt (DocRow.description step.1)
   then [py_str (DocRow.description step.1); ""] else []) ++
  List.concat (format_code_block <$> step.2) ++
  ["---"; ""].

Definition get_tutorial (db : Store) (tutorial_name : string) : result string :=
  let* docs := select_documents db (tutorial_where tutorial_name) in
  match docs with
  | [] =>
      Ok ("Tutorial not found: " +:+ tutorial_name +:+ LFs +:+ LFs +:+
          "Available tutorials: Use list_categories() to see all tutorials.")
  | _ =>
      let* steps := tutorial_steps_loop db (merge_sort path_le docs) in
      Ok (Py.join LFs
            (["# " +:+ str_title tutorial_name +:+ " Tutorial"; ""] ++
             List.concat (imap format_step steps)))
  end.

Section ServerMore.
Variable cfg : Config.

(** ** [search_examples] *)

(** [code_blocks cb JOIN documents d ON cb.document_id = d.id]. *)
Definition joined_examples (db : Store)
    : result (list (CodeBlock.t * DocRow.t)) :=
  match t_code_blocks db, t_documents db with
  | Some blocks, Some docs =>
      Ok (List.concat
            ((λ cb,
               (λ d, (cb, d))
                 <$> List.filter
                       (λ d, String.eqb (DocRow.id d) (CodeBlock.document_id cb))
                       docs)
               <$> blocks))
  | _, _ => Raise (OtherError "OperationalError")
  end.

(** [cb.code LIKE ? OR cb.context LIKE ?], a NULL context matching
    nothing, and the language test when a language is given. *)
Definition example_where (query : string) (language : option string)
    (cb : CodeBlock.t) : bool :=
  (sql_like ("%" +:+ query +:+ "%") (CodeBlock.code cb)
   || match CodeBlock.context cb with
      | Some c => sql_like ("%" +:+ query +:+ "%") c
      | None => false
      end)
  && match language with
     | Some l =>
         if Py.nonempty l then String.eqb (CodeBlock.language cb) l else true
     | None => true
     end.

Definition found_examples (db : Store) (query : string)
    (language : option string) : result (list (CodeBlock.t * DocRow.t)) :=
  let* joined := joined_examples db in
  Ok (take 10 (List.filter (λ p, example_where query language p.1) joined)).

Definition format_example (p : CodeBlock.t * DocRow.t) : string :=
  let context_str :=
    if truthy_opt (CodeBlock.context p.1)
    then "**Context:** " +:+ py_str (CodeBlock.context p.1) +:+ LFs
    else "" in
  "### " +:+ DocRow.title p.2 +:+ LFs +:+
  "**File:** " +:+ DocRow.file_path p.2 +:+ LFs +:+
  "**Language:** " +:+ CodeBlock.language p.1 +:+ LFs +:+
  context_str +:+
  LFs +:+ FENCE +:+ CodeBlock.language p.1 +:+ LFs +:+
  slice_chars_to (MAX_CODE_PREVIEW_LENGTH cfg) (CodeBlock.code p.1) +:+ LFs +:+
  FENCE +:+ LFs.

Definition search_examples (db : Store) (query : string)
    (language : option string) : result string :=
  let* results := found_examples db query language in
  match results with
  | [] => Ok ("No code examples found matching: " +:+ query)
  | _ => Ok (Py.join ENTRY_SEPARATOR (format_example <$> results))
  end.

(** ** [get_element_details] *)

Definition element_where (element_name : string) (element_type : option string)
    (e : GraphQLElement.t) : bool :=
  String.eqb (GraphQLElement.name e) element_name
  && match element_type with
     | Some t =>
         if Py.nonempty t then String.eqb (GraphQLElement.element_type e) t
         else true
     | None => true
     end.

Definition format_element_source (db : Store) (elem : GraphQLElement.t)
    (doc : DocRow.t) : result (list string) :=
  let* code_blocks :=
    example_blocks db (GraphQLElement.document_id elem) ["graphql"] 3 in
  Ok (["**Source Document:** " +:+ DocRow.title doc;
       "**Path:** " +:+ DocRow.file_path doc;
       ""] ++
      match code_blocks with
      | [] => []
      | _ =>
          ["**Example Code:**"; ""] ++
          List.concat
            ((λ block,
               ["```graphql";
                slice_chars_to (MAX_CODE_PREVIEW_LENGTH cfg + 100)
                  (CodeBlock.code block);
                FENCE; ""]) <$> code_blocks)
      end).

Definition format_element_details (db : Store) (elem : GraphQLElement.t)
    : result string :=
  let* doc := document_by_id db (GraphQLElement.document_id elem) in
  let lines :=
    ["# `" +:+ GraphQLElement.element_type elem +:+ "` **" +:+
       GraphQLElement.name elem +:+ "**";
     ""] ++
    match GraphQLElement.parameters elem with
    | [] => []
    | params => ["**Parameters:** " +:+ Py.join ", " params; ""]
    end ++
    match GraphQLElement.fields elem with
    | [] => []
    | fields => ["**Fields:** " +:+ Py.join ", " fields; ""]
    end ++
    (if truthy_opt (GraphQLElement.description elem)
     then ["**Description:** " +:+ py_str (GraphQLElement.description elem); ""]
     else []) in
  let* source_lines :=
    match doc with
    | Some d => format_element_source db elem d
    | None => Ok []
    end in
  Ok (Py.join LFs (lines ++ source_lines)).

Fixpoint format_all_details (db : Store) (elements : list GraphQLElement.t)
    : result (list string) :=
  match elements with
  | [] => Ok []
  | elem :: rest =>
      let* entry := format_element_details db elem in
      let* others := format_all_details db rest in
      Ok (entry :: others)
  end.

Definition get_element_details (db : Store) (element_name : string)
    (element_type : option string) : result string :=
  let* elements :=
    select_rows (t_graphql_elements db)
      (element_where element_name element_type) in
  match elements with
  | [] =>
      Ok ("GraphQL element not found: " +:+ element_name +:+ LFs +:+ LFs +:+
          "Tip: Use search_graphql_elements to find similar elements.")
  | _ =>
      let* formatted := format_all_details db elements in
      Ok (Py.join ENTRY_SEPARATOR formatted)
  end.

(** ** [search_graphql_elements] *)

(** [db["graphql_elements"].search(query, limit=10)]: the FTS5 engine over
    the elements. *)
Variable fts_search_elements :
  list GraphQLElement.t → string → Z → result (list GraphQLElement.t).

(** The list [results] of [search_graphql_elements] when formatting
    starts. *)
Definition element_search_results (db : Store) (query : string)
    (element_type : option string) : result (list GraphQLElement.t) :=
  match t_graphql_elements db, t_graphql_elements_fts db with
  | Some rows, true =>
      let* results := fts_search_elements rows query 10 in
      Ok (filter_if element_type
            (λ v r, String.eqb (GraphQLElement.element_type r) v) results)
  | _, _ => Raise (OtherError "OperationalError")
  end.

Definition format_found_element (db : Store) (elem : GraphQLElement.t)
    : result string :=
  let* doc := document_by_id db (GraphQLElement.document_id elem) in
  let source :=
    match doc with
    | Some d => DocRow.title d +:+ " (" +:+ DocRow.file_path d +:+ ")"
    | None => "Unknown"
    end in
  Ok ("### `" +:+ GraphQLElement.element_type elem +:+ "` **" +:+
      GraphQLElement.name elem +:+ "**" +:+ LFs +:+
      "**Source:** " +:+ source +:+ LFs +:+
      "**Fields:** " +:+
        match GraphQLElement.fields elem with
        | [] => "None"
        | fields => Py.join ", " (take 10 fields)
        end +:+ LFs +:+
      "**Parameters:** " +:+ or_none (GraphQLElement.parameters elem) +:+ LFs).

Fixpoint format_found_elements (db : Store) (elements : list GraphQLElement.t)
    : result (list string) :=
  match elements with
  | [] => Ok []
  | elem :: rest =>
      let* entry := format_found_element db elem in
      let* others := format_found_elements db rest in
      Ok (entry :: others)
  end.

Definition search_graphql_elements (db : Store) (query : string)
    (element_type : option string) : result string :=
  let* results := element_search_results db query element_type in
  match results with
  | [] => Ok ("No GraphQL elements found matching: " +:+ query)
  | _ =>
      let* formatted := format_found_elements db results in
      Ok (Py.join ENTRY_SEPARATOR formatted)
  end.

End ServerMore.

(** ** [list_categories] *)

(** The order of [ORDER BY category, subcategory]: texts by character
    code, NULL before every text. *)
Definition group_leb (a b : string * option string) : bool :=
  if String.eqb a.1 b.1 then
    match a.2, b.2 with
    | None, _ => true
    | Some _, None => false
    | Some x, Some y => (x <=? y)%string
    end
  else (a.1 <=? b.1)%string.

Definition group_le (a b : string * option string) : Prop :=
  group_leb a b = true.

#[global] Instance group_le_dec : RelDecision group_le :=
  λ a b, decide (group_leb a b = true).

Definition group_of (d : DocRow.t) : string * option string :=
  (DocRow.category d, DocRow.subcategory d).

(** [SELECT category, subcategory, COUNT(..) FROM documents GROUP BY
    category, subcategory ORDER BY category, subcategory]. *)
Definition category_counts (db : Store)
    : result (list (string * option string * nat)) :=
  let* docs := select_documents db (λ _, true) in
  Ok ((λ g,
        (g.1, g.2,
         length (List.filter (λ d, bool_decide (group_of d = g)) docs)))
        <$> merge_sort group_le (remove_dups (group_of <$> docs))).

(** [row['subcategory'] or 'N/A']. *)
Definition subcategory_label (subcategory : option string) : string :=
  if truthy_opt subcategory then py_str subcategory else "N/A".

(** One pass of the loop that fills [cat_tree]. *)
Definition add_count (cat_tree : gmap string (gmap string nat))
    (row : string * option string * nat) : gmap string (gmap string nat) :=
  <[row.1.1 :=
      <[subcategory_label row.1.2 := row.2]>
        (default ∅ (cat_tree !! row.1.1))]> cat_tree.

(** The dictionary [cat_tree] when formatting starts. *)
Definition category_tree (db : Store)
    : result (gmap string (gmap string nat)) :=
  let* rows := category_counts db in
  Ok (foldl add_count ∅ rows).

(** [sorted(d.keys())]. *)
Definition sorted_keys {V} (d : gmap string V) : list string :=
  merge_sort String.le (map_to_list d).*1.

(** [sum(d.values())]. *)
Definition sum_values (d : gmap string nat) : nat :=
  sum_list (map_to_list d).*2.

Definition format_category (cat : string) (subcats : gmap string nat)
    : list string :=
  ["## " +:+ cat +:+ " (" +:+ pretty (sum_values subcats) +:+ " documents)";
   ""] ++
  ((λ subcat,
     "  - `" +:+ subcat +:+ "`: " +:+
     pretty (default 0%nat (subcats !! subcat)) +:+ " documents")
     <$> sorted_keys subcats) ++
  [""].

Definition list_categories (db : Store) : result string :=
  let* cat_tree := category_tree db in
  Ok (Py.join LFs
        (["# Magento 2 GraphQL Documentation Categories" +:+ LFs] ++
         List.concat
           ((λ cat, format_category cat (default ∅ (cat_tree !! cat)))
              <$> sorted_keys cat_tree))).

(** * Sample inputs *)

(** The lines of a markdown body, joined by line feeds. *)
Definition nl (l : list string) : string := Py.join LFs l.

(** The corpus of the products scenario: one file, whose front matter gives
    the title and whose body is one fenced block. *)
Definition products_code : string := "query products { items { sku name } }".

Definition products_file : SourceFile :=
  {| sf_parts := ["schema"; "products"; "queries"; "products.md"];
     sf_mtime := 1700000000;
     sf_post :=
       Some {| metadata := {[ "title" := YStr "Products Query" ]};
               content := nl ["```graphql"; products_code; "```"] |} |}.

(** What the scenario expects of a parser pass: one document, one code block
    and one element with the given attributes, the element's fields
    containing every name of [wanted]. *)
Definition products_scenario (wanted : list string)
    (out : list Document.t * list CodeBlock.t * list GraphQLElement.t)
    : Prop :=
  (∃ doc, out.1.1 = [doc] ∧ Document.category doc = "schema" ∧
          Document.subcategory doc = Some "products" ∧
          Document.content_type doc = "schema") ∧
  (∃ block, out.1.2 = [block] ∧ CodeBlock.language block = "graphql") ∧
  (∃ el, out.2 = [el] ∧ GraphQLElement.element_type el = "query" ∧
         GraphQLElement.name el = "products" ∧
         Forall (λ f, f ∈ GraphQLElement.fields el) wanted).

Definition content_types : list string :=
  ["schema"; "tutorial"; "guide"; "reference"].

(** [s] occurs in [text]. *)
Definition is_substring (s text : string) : Prop :=
  ∃ before after, text = before +:+ s +:+ after.

(** A computation that leaves the metadata record as it found it, however
    it ends. *)
Definition keeps_metadata {A} (m : M A) : Prop :=
  ∀ st r st', m st = (r, st') → last_ingestion st' = last_ingestion st.

(** An exception is raised on the way to [update_metadata]: by the schema
    creation, by the directory walk, or by [ingest_data] (parsing and the
    bulk delete and insert), in a run that does re-ingest. *)
Inductive raised_before_metadata (cfg : Config) (rt : Runtime)
    (faults : Faults) (docs : option (list SourceFile)) (st : Store)
    (e : exc) : Prop :=
  | raised_in_create_tables st1 :
      should_reingest rt st docs = true →
      create_tables faults st = (Raise e, st1) →
      raised_before_metadata cfg rt faults docs st e
  | raised_in_walk_directory files st1 :
      docs = Some files →
      should_reingest rt st docs = true →
      create_tables faults st = (Ok tt, st1) →
      attempt faults WalkDirectory st1 = (Raise e, st1) →
      raised_before_metadata cfg rt faults docs st e
  | raised_in_ingest_data files st1 st2 :
      docs = Some files →
      should_reingest rt st docs = true →
      create_tables faults st = (Ok tt, st1) →
      attempt faults WalkDirectory st1 = (Ok tt, st1) →
      ingest_data cfg rt faults files st1 = (Raise e, st2) →
      raised_before_metadata cfg rt faults docs st e.

(** A computation out of which [FileNotFoundError] never comes. *)
Definition never_file_not_found {A} (m : M A) : Prop :=
  ∀ st st', m st ≠ (Raise FileNotFoundError, st').

(** A database whose bulk insert of documents fails. *)
Definition insert_fails : Faults :=
  λ s, match s with
       | InsertDocuments => Some (OtherError "OperationalError")
       | _ => None
       end.

(** The products file after an edit that keeps its modification time. *)
Definition products_file_touched : SourceFile :=
  {| sf_parts := sf_parts products_file;
     sf_mtime := sf_mtime products_file;
     sf_post :=
       Some {| metadata := {[ "title" := YStr "Products" ]};
               content := "No code any more." |} |}.

(** Whether labels follow branches: a result of the category branch reads
    "Same category", a result of the keyword branch alone "Similar
    content". *)
Definition labelled_by_branch (source_doc : DocRow.t)
    (by_category by_keywords : list DocRow.t) : Prop :=
  ∀ doc,
    (doc ∈ by_category → relationship source_doc doc = "Same category")
    ∧ (doc ∈ by_keywords → ¬ (doc ∈ by_category) →
       relationship source_doc doc = "Similar content").

(** A small corpus: three schema pages, one of them on the cart, and a usage
    page without a subcategory. *)
Definition sample_page (parts : list string) (keywords : list string)
    : SourceFile :=
  {| sf_parts := parts;
     sf_mtime := 1700000000;
     sf_post :=
       Some {| metadata :=
                 {[ "title" := YStr (rel_path_of parts);
                    "keywords" := YList (YStr <$> keywords) ]};
               content := "Body text." |} |}.

Definition sample_corpus : list SourceFile :=
  [ sample_page ["schema"; "products"; "queries"; "products.md"] ["cart"];
    sample_page ["schema"; "products"; "queries"; "categories.md"] [];
    sample_page ["schema"; "cart"; "queries"; "cart.md"] ["cart"; "checkout"];
    sample_page ["usage"; "caching.md"] ["cart"] ].

Definition sample_db : Store :=
  (ingest_graphql_docs default_config sample_runtime no_faults
     (Some sample_corpus) "now" empty_store).2.

(** A result cap of two, fetched twice over before filtering. *)
Definition small_config : Config :=
  {| DB_TOP_K := 2; MAX_FIELDS_PER_ELEMENT := 20;
     MAX_CODE_PREVIEW_LENGTH := 400; SEARCH_RESULT_MULTIPLIER := 2 |}.

(** A full-text engine for which every row is a hit, up to the limit. *)
Definition every_row_hits (rows : list DocRow.t) (query : string) (limit : Z)
    : result (list DocRow.t) :=
  Ok (Py.slice_to limit rows).

(** * Further vocabulary *)

(** The language tag a fence line declares. *)
Definition fence_tag (line : string) : string :=
  Py.lower (Py.strip (Py.drop_chars 3 (Py.strip line))).

(** Number of fence lines among [lines]. *)
Definition count_fences (lines : list string) : nat :=
  length (List.filter is_fence lines).

(** Every character of [s] satisfies [p]. *)
Fixpoint all_chars (p : ascii → bool) (s : string) : bool :=
  match s with
  | EmptyString => true
  | String c s' => p c && all_chars p s'
  end.

(** The first character of [s], if any, does not satisfy [p]. *)
Definition stops (p : ascii → bool) (s : string) : bool :=
  match s with
  | EmptyString => true
  | String c _ => negb (p c)
  end.

(** An identifier: a letter or underscore, then word characters. *)
Definition is_identifier (s : string) : bool :=
  match s with
  | EmptyString => false
  | String c _ => (Py.is_alpha c || Ascii.eqb c "_") && all_chars Py.is_word s
  end.

Definition element_kinds : list string :=
  ["query"; "mutation"; "type"; "interface"].

(** The store [create_tables] leaves when nothing fails: absent tables are
    created empty, present ones are kept as they are. *)
Definition with_schema (st : Store) : Store :=
  {| t_metadata := Some (default ∅ (t_metadata st));
     t_documents := Some (default [] (t_documents st));
     t_code_blocks := Some (default [] (t_code_blocks st));
     t_graphql_elements := Some (default [] (t_graphql_elements st));
     t_documents_fts := true;
     t_graphql_elements_fts := true |}.

(** The text [get_document] returns for a row it has found. *)
Definition format_document (doc : DocRow.t) : string :=
  Py.join LFs
    (["# " +:+ DocRow.title doc;
      "";
      "**Path:** " +:+ DocRow.file_path doc;
      "**Category:** " +:+ DocRow.category doc +:+ "/" +:+
        py_str (DocRow.subcategory doc);
      "**Type:** " +:+ DocRow.content_type doc;
      "**Keywords:** " +:+
        match DocRow.keywords doc with
        | [] => "None"
        | _ => Py.join ", " (DocRow.keywords doc)
        end;
      ""] ++
     (if truthy_opt (DocRow.description doc)
      then ["**Description:** " +:+ py_str (DocRow.description doc); ""]
      else []) ++
     ["---"; ""; DocRow.content_md doc]).

(** The products file after an edit that moves its modification time. *)
Definition products_file_newer : SourceFile :=
  {| sf_parts := sf_parts products_file;
     sf_mtime := 1700000500;
     sf_post := sf_post products_file |}.


(** * Properties of the parser *)

Section ParserFacts.

Lemma startswith_cons a p b s :
  Py.startswith (String a p) (String b s)
  = Ascii.eqb a b && Py.startswith p s.
Proof. reflexivity. Qed.

Lemma fence_is_context_line s :
  Py.startswith FENCE s = true → is_context_line s = true.
Proof.
  destruct s as [|c s]; [discriminate|].
  unfold FENCE. rewrite startswith_cons.
  intros [Hc _]%andb_prop. apply Ascii.eqb_eq in Hc as <-. reflexivity.
Qed.

(** The loop only ever puts lines in front of what it has collected. *)
Lemma context_loop_keeps lines idxs acc :
  ∃ pre, context_loop lines idxs acc = pre ++ acc.
Proof.
  revert acc. induction idxs as [|i idxs IH]; intros acc; simpl.
  - by exists [].
  - destruct (is_context_line _).
    + destruct (IH (Py.strip (nth (Z.to_nat i) lines "") :: acc)) as [pre ->].
      exists (pre ++ [Py.strip (nth (Z.to_nat i) lines "")]).
      by rewrite <- app_assoc.
    + destruct acc; [apply IH | by exists []].
Qed.

Lemma range_down_head (i : nat) :
  ∃ rest, Py.range_down (Z.of_nat i) (Z.max (-1) (Z.of_nat i - 5))
          = Z.of_nat i :: rest.
Proof.
  unfold Py.range_down.
  rewrite seqZ_cons by lia. simpl.
  eexists. f_equal. lia.
Qed.

(** Scanning from the index of a fence line always yields a context, and
    the fence line is its last part. *)
Lemma extract_context_at_fence lines (i : nat) line :
  lines !! i = Some line → is_fence line = true →
  ∃ pre, extract_context lines (Z.of_nat i)
         = Some (Py.join " " (pre ++ [Py.strip line])).
Proof.
  intros Hi Hf. unfold extract_context.
  destruct (Z.ltb_spec (Z.of_nat i) 0) as [|_]; [lia|].
  destruct (range_down_head i) as [rest ->]. simpl.
  rewrite Nat2Z.id.
  assert (nth i lines "" = line) as ->.
  { apply nth_lookup_Some with (d := ""), Hi. }
  rewrite (fence_is_context_line _ Hf).
  destruct (context_loop_keeps lines rest [Py.strip line]) as [pre ->].
  exists pre. by destruct pre.
Qed.

(** Every block [extract_code_blocks] returns carries a context whose last
    part is the block's own opening fence line. *)
Lemma blocks_loop_context fuel doc_id lines i b :
  b ∈ blocks_loop fuel doc_id lines i →
  ∃ (j : nat) line pre,
    lines !! j = Some line ∧ is_fence line = true ∧
    CodeBlock.line_number b = S (S j) ∧
    CodeBlock.context b = Some (Py.join " " (pre ++ [Py.strip line])).
Proof.
  revert i. induction fuel as [|fuel IH]; intros i; simpl.
  - by intros ?%elem_of_nil.
  - destruct (lines !! i) as [line|] eqn:Hi; [|by intros ?%elem_of_nil].
    destruct (is_fence line) eqn:Hf; [|apply IH].
    intros [->|Hin]%elem_of_cons; [|by eapply IH].
    destruct (extract_context_at_fence lines i line Hi Hf) as [pre Hctx].
    exists i, line, pre. simpl. repeat split; try done.
    rewrite <- Hctx. f_equal. lia.
Qed.

(** The loop of [extract_code_blocks] ends on its own: any fuel of at least
    [len(lines) - i] gives the same blocks. *)
Lemma blocks_loop_enough fuel fuel' doc_id lines i :
  (length lines - i ≤ fuel)%nat → (length lines - i ≤ fuel')%nat →
  blocks_loop fuel doc_id lines i = blocks_loop fuel' doc_id lines i.
Proof.
  revert fuel' i. induction fuel as [|fuel IH]; intros [|fuel'] i H1 H2; simpl;
    try done.
  - rewrite lookup_ge_None_2 by lia. done.
  - rewrite lookup_ge_None_2 by lia. done.
  - destruct (lines !! i) as [line|] eqn:Hi; [|done].
    apply lookup_lt_Some in Hi.
    destruct (is_fence line); [f_equal|]; apply IH; lia.
Qed.

End ParserFacts.

(** C7 (the code departs from the claim).  The context is meant to be the
    paragraph before the block, and never the block's own opening fence.
    [extract_code_blocks] starts the backward scan one line too late, at the
    fence line itself: a paragraph directly above the block comes out with
    the fence text appended, and a block preceded by a blank line gets the
    fence text as its context instead of no context.  It is so for every
    block of every body: the context is never [None] and its last part is
    the block's opening fence line. *)
Theorem context_includes_opening_fence :
  CodeBlock.context <$>
    extract_code_blocks (nl ["Intro text"; "```graphql"; "query x"; "```"]) "doc"
  = [Some "Intro text ```graphql"]
  ∧ CodeBlock.context <$>
      extract_code_blocks (nl [""; "```graphql"; "query x"; "```"]) "doc"
    = [Some "```graphql"]
  ∧ (∀ markdown doc_id block,
       block ∈ extract_code_blocks markdown doc_id →
       ∃ line before,
         line ∈ Py.split LF markdown ∧ is_fence line = true ∧
         CodeBlock.context block
         = Some (Py.join " " (before ++ [Py.strip line]))).
Proof.
  split; [vm_compute; reflexivity|]. split; [vm_compute; reflexivity|].
  intros markdown doc_id block Hblock.
  apply blocks_loop_context in Hblock as (j & line & before & Hj & Hf & _ & Hctx).
  exists line, before. split; [|done].
  by eapply list_elem_of_lookup_2.
Qed.

Section ScenarioFacts.
Variable rt : Runtime.

Lemma slice_to_all {A} (k : Z) (xs : list A) :
  Z.of_nat (length xs) ≤ k → Py.slice_to k xs = xs.
Proof.
  intros Hk. unfold Py.slice_to.
  destruct (Z.leb_spec 0 k); [|lia].
  apply take_ge. lia.
Qed.

Lemma products_fields_found :
  findall_fields 0 None products_code = ["products"; "items"].
Proof. vm_compute. reflexivity. Qed.

Lemma products_fields :
  extract_fields default_config rt products_code
  ≡ₚ ["products"; "items"].
Proof.
  unfold extract_fields. rewrite products_fields_found.
  pose proof (set_list_perm (set_order rt) ["products"; "items"]) as Hp.
  rewrite slice_to_all.
  - rewrite Hp. vm_compute. reflexivity.
  - rewrite (Permutation_length Hp). vm_compute. discriminate.
Qed.

Lemma products_elements doc_id :
  extract_graphql_elements default_config rt products_code doc_id
  = [GraphQLElement.mk doc_id "query" "products"
       (extract_fields default_config rt products_code)
       (extract_parameters rt products_code) None None
       ("query products " +:+
        spaced (extract_fields default_config rt products_code) +:+ " " +:+
        spaced (extract_parameters rt products_code))].
Proof. reflexivity. Qed.

Lemma products_parse :
  ∃ doc block,
    parse_all default_config rt [products_file]
    = ([doc], [block],
       extract_graphql_elements default_config rt products_code
         (Document.id doc))
    ∧ Document.category doc = "schema"
    ∧ Document.subcategory doc = Some "products"
    ∧ Document.content_type doc = "schema"
    ∧ Document.title doc = "Products Query"
    ∧ CodeBlock.language block = "graphql"
    ∧ CodeBlock.code block = products_code.
Proof. eexists _, _. repeat split. Qed.

End ScenarioFacts.

(** C4 (counterexample).  On the corpus of the scenario the one element's
    fields are "products" and "items": the scenario as the claim has it,
    with "sku" and "name" among the fields, does not hold. *)
Lemma products_fields_lack_sku_and_name :
  ¬ products_scenario ["items"; "sku"; "name"]
      (parse_all default_config sample_runtime [products_file]).
Proof.
  intros (_ & _ & el & Hel & _ & _ & Hfields).
  vm_compute in Hel. injection Hel as <-.
  apply Forall_cons in Hfields as [_ [Hsku _]%Forall_cons].
  apply list_elem_of_In in Hsku. simpl in Hsku. intuition discriminate.
Qed.

(** C4 (amended).  For the corpus of the scenario, whatever the hash and the
    set order, ingestion's parser pass yields exactly one Document (category
    "schema", subcategory "products", content type "schema"), exactly one
    CodeBlock (language "graphql") and exactly one SchemaElement (kind
    "query", name "products") whose fields are exactly the identifiers that
    a brace follows, "products" and "items"; "sku" and "name" are not among
    them. *)
Theorem products_scenario_fields (rt : Runtime) :
  let out := parse_all default_config rt [products_file] in
  products_scenario ["products"; "items"] out
  ∧ (∀ el, el ∈ out.2 →
       GraphQLElement.fields el ≡ₚ ["products"; "items"]
       ∧ ¬ ("sku" ∈ GraphQLElement.fields el)
       ∧ ¬ ("name" ∈ GraphQLElement.fields el)).
Proof.
  destruct (products_parse rt)
    as (doc & block & Hparse & Hc & Hs & Ht & _ & Hl & _).
  pose proof (products_fields rt) as Hp.
  assert (∀ x, x ∈ extract_fields default_config rt products_code
               ↔ x = "products" ∨ x = "items") as Hin.
  { intros x. rewrite Hp, !elem_of_cons, elem_of_nil. tauto. }
  cbv zeta. rewrite Hparse, products_elements. split.
  - repeat split.
    + by exists doc.
    + by exists block.
    + eexists. repeat split. simpl.
      repeat constructor; apply Hin; auto.
  - intros el ->%list_elem_of_singleton. simpl.
    split; [exact Hp|]. rewrite !Hin. split; intros [?|?]; discriminate.
Qed.

(** * Properties of a parsed document *)

Lemma bind_Ok {A B} (r : result A) (k : A → result B) b :
  bind r k = Ok b → ∃ a, r = Ok a ∧ k a = Ok b.
Proof. destruct r as [a|e]; simpl; [eauto | discriminate]. Qed.

Lemma append_empty_r (s : string) : s +:+ "" = s.
Proof. induction s as [|c s IH]; [reflexivity|]. by rewrite <- IH at 2. Qed.

Lemma join_head sep (x : string) (xs : list string) :
  ∃ rest, Py.join sep (x :: xs) = x +:+ rest.
Proof.
  destruct xs as [|y ys].
  - exists "". symmetry. apply append_empty_r.
  - by eexists.
Qed.

Lemma join_truthy_head (t : string) (tail : list yaml) text :
  join_truthy (YStr t :: tail) = Ok text → ∃ rest, text = t +:+ rest.
Proof.
  unfold join_truthy. simpl. destruct t as [|c t]; simpl.
  - intros _. by exists text.
  - destruct (strings_of (List.filter truthy tail)) as [ss|]; [|discriminate].
    intros [= <-]. apply join_head.
Qed.

(** The searchable text starts with the title. *)
Lemma build_searchable_text_head (t : string) description content keywords
    headers text :
  build_searchable_text (YStr t) description content keywords headers = Ok text →
  ∃ rest, text = t +:+ rest.
Proof.
  unfold build_searchable_text.
  destruct (truthy keywords); [destruct keywords; try discriminate|];
    destruct (truthy description); simpl; apply join_truthy_head.
Qed.

Lemma determine_content_type_closed category rel_path :
  determine_content_type category rel_path ∈ content_types.
Proof.
  unfold determine_content_type, content_types.
  repeat case_decide; try destruct (Py.contains _ _);
    rewrite !elem_of_cons; auto.
Qed.

(** C9.  A file that parses into a Document has a category, which is "root"
    for a file directly under the root and the first path segment otherwise
    (the field is a string: it cannot be null); its content type is one of
    schema, tutorial, guide, reference; and its searchable text starts with,
    hence contains, its title. *)
Theorem parsed_document_invariants (rt : Runtime) (f : SourceFile)
    (doc : Document.t) :
  parse_file rt f = Ok doc →
  Document.category doc = (extract_category_from_path (sf_parts f)).1
  ∧ (length (sf_parts f) = 1%nat → Document.category doc = "root")
  ∧ Document.content_type doc ∈ content_types
  ∧ (∃ rest, Document.searchable_text doc = Document.title doc +:+ rest)
  ∧ is_substring (Document.title doc) (Document.searchable_text doc).
Proof.
  unfold parse_file. destruct (sf_post f) as [post|]; [|discriminate].
  destruct (extract_category_from_path (sf_parts f)) as [category subcategory] eqn:Hcat.
  intros (text & Htext & H)%bind_Ok.
  apply bind_Ok in H as (title & Htitle & H).
  apply bind_Ok in H as (description & _ & H).
  apply bind_Ok in H as (keywords & _ & [= <-]). simpl.
  assert (∃ rest, text = title +:+ rest) as [rest ->].
  { revert Htitle Htext.
    generalize (match metadata post !! "title" with
                | Some v => v
                | None =>
                    match extract_first_header (content post) with
                    | Some h =>
                        if Py.nonempty h then YStr h
                        else YStr (rel_path_of (sf_parts f))
                    | None => YStr (rel_path_of (sf_parts f))
                    end
                end).
    intros [|t| |]; try discriminate. intros [= ->].
    apply build_searchable_text_head. }
  repeat split.
  - intros Hlen. unfold extract_category_from_path in Hcat.
    rewrite decide_True in Hcat by done. by injection Hcat as <- _.
  - apply determine_content_type_closed.
  - by exists rest.
  - by exists "", rest.
Qed.

(** C9 holds of a file that does parse: the file of the products scenario. *)
Lemma parsed_document_invariants_witness :
  let doc :=
    Document.mk "sha256:schema/products/queries/products.md"
      "schema/products/queries/products.md" "Products Query" None []
      "schema" (Some "products") "schema" "Products Query" [] 1700000000
      (nl ["```graphql"; products_code; "```"]) in
  Document.category doc = "schema"
  ∧ (length (sf_parts products_file) = 1%nat → Document.category doc = "root")
  ∧ Document.content_type doc ∈ content_types
  ∧ (∃ rest, Document.searchable_text doc = Document.title doc +:+ rest)
  ∧ is_substring (Document.title doc) (Document.searchable_text doc).
Proof.
  exact (parsed_document_invariants sample_runtime products_file _ eq_refl).
Defined.

(** * Properties of the ingestion coordinator *)

Lemma bindM_Ok {A B} (m : M A) (k : A → M B) st b st' :
  bindM m k st = (Ok b, st') →
  ∃ a st1, m st = (Ok a, st1) ∧ k a st1 = (Ok b, st').
Proof.
  unfold bindM. destruct (m st) as [[a|e] st1]; [eauto | discriminate].
Qed.

Lemma bindM_Raise {A B} (m : M A) (k : A → M B) st e st' :
  bindM m k st = (Raise e, st') →
  m st = (Raise e, st') ∨ ∃ a st1, m st = (Ok a, st1) ∧ k a st1 = (Raise e, st').
Proof.
  unfold bindM. destruct (m st) as [[a|e1] st1]; [eauto|].
  intros [= -> ->]. by left.
Qed.

Lemma bindM_run_Ok {A B} (m : M A) (k : A → M B) st a st1 :
  m st = (Ok a, st1) → bindM m k st = k a st1.
Proof. unfold bindM. by intros ->. Qed.

Lemma bindM_run_Raise {A B} (m : M A) (k : A → M B) st e st1 :
  m st = (Raise e, st1) → bindM m k st = (Raise e, st1).
Proof. unfold bindM. by intros ->. Qed.

Lemma keeps_ret {A} (a : A) : keeps_metadata (ret a).
Proof. by intros st r st' [= <- <-]. Qed.

Lemma keeps_raise {A} e : keeps_metadata (@raise A e).
Proof. by intros st r st' [= <- <-]. Qed.

Lemma keeps_bindM {A B} (m : M A) (k : A → M B) :
  keeps_metadata m → (∀ a, keeps_metadata (k a)) → keeps_metadata (bindM m k).
Proof.
  intros Hm Hk st r st'. unfold bindM.
  destruct (m st) as [[a|e] st1] eqn:Hrun.
  - intros Hka. rewrite (Hk _ _ _ _ Hka). eauto.
  - intros [= <- <-]. eauto.
Qed.

Lemma keeps_get_bind {B} (k : Store → M B) :
  (∀ st r st', k st st = (r, st') → last_ingestion st' = last_ingestion st) →
  keeps_metadata (bindM get_store k).
Proof. intros Hk st r st'. apply Hk. Qed.

Lemma keeps_when b m : keeps_metadata m → keeps_metadata (when b m).
Proof. destruct b; [done | intros _; apply keeps_ret]. Qed.

Lemma keeps_modify f :
  (∀ st, last_ingestion (f st) = last_ingestion st) →
  keeps_metadata (modify f).
Proof. intros Hf st r st' [= <- <-]. apply Hf. Qed.

Section IngestFacts.
Variable cfg : Config.
Variable rt : Runtime.
Variable faults : Faults.

Lemma keeps_attempt s : keeps_metadata (attempt faults s).
Proof.
  unfold attempt. destruct (faults s); [apply keeps_raise | apply keeps_ret].
Qed.

(** Creating a table changes the store only when the table was absent. *)
Lemma keeps_create {A} (s : step) (tbl : Store → option A)
    (set : Store → Store) :
  (∀ st, tbl st = None → last_ingestion (set st) = last_ingestion st) →
  keeps_metadata
    (bindM get_store (λ db,
       when (is_none (tbl db)) (attempt faults s ;;; modify set))).
Proof.
  intros Hset. apply keeps_get_bind. intros st r st'.
  destruct (tbl st) eqn:Htbl; simpl.
  - by intros [= <- <-].
  - unfold bindM, attempt, modify, raise, ret.
    destruct (faults s); intros [= <- <-]; auto.
Qed.

Lemma keeps_enable (s : step) (flag : Store → bool) (set : Store → Store) :
  (∀ st, last_ingestion (set st) = last_ingestion st) →
  keeps_metadata
    (bindM get_store (λ db,
       when (negb (flag db)) (attempt faults s ;;; modify set))).
Proof.
  intros Hset. apply keeps_get_bind. intros st r st'.
  destruct (flag st); simpl.
  - by intros [= <- <-].
  - unfold bindM, attempt, modify, raise, ret.
    destruct (faults s); intros [= <- <-]; auto.
Qed.

Lemma create_tables_keeps : keeps_metadata (create_tables faults).
Proof.
  unfold create_tables.
  apply keeps_bindM; [|intros _].
  { apply (keeps_create _ t_metadata). intros st H.
    unfold last_ingestion. simpl. by rewrite H. }
  apply keeps_bindM; [by apply (keeps_create _ t_documents)|intros _].
  apply keeps_bindM; [by apply (keeps_create _ t_code_blocks)|intros _].
  apply keeps_bindM; [by apply (keeps_create _ t_graphql_elements)|intros _].
  apply keeps_bindM; [by apply keeps_enable|intros _].
  by apply keeps_enable.
Qed.

Lemma keeps_delete_where {A} s (tbl : Store → option (list A)) set :
  (∀ v st, last_ingestion (set v st) = last_ingestion st) →
  keeps_metadata (delete_where faults s tbl set).
Proof.
  intros Hset. unfold delete_where.
  apply keeps_bindM; [apply keeps_attempt|intros _].
  apply keeps_get_bind. intros st r st'.
  destruct (tbl st); [apply keeps_modify, Hset | apply keeps_raise].
Qed.

Lemma keeps_insert_all {A} s (tbl : Store → option (list A)) set records :
  (∀ v st, last_ingestion (set v st) = last_ingestion st) →
  keeps_metadata (insert_all faults s tbl set records).
Proof.
  intros Hset. unfold insert_all.
  apply keeps_bindM; [apply keeps_attempt|intros _].
  apply keeps_get_bind. intros st r st'. apply keeps_modify, Hset.
Qed.

Lemma keeps_insert_documents records :
  keeps_metadata (insert_documents faults records).
Proof.
  unfold insert_documents. apply keeps_get_bind. intros st r st'.
  case_decide.
  - by apply keeps_insert_all.
  - apply keeps_bindM; [apply keeps_attempt | intros _; apply keeps_raise].
Qed.

Lemma ingest_data_keeps files : keeps_metadata (ingest_data cfg rt faults files).
Proof.
  unfold ingest_data.
  apply keeps_bindM; [apply keeps_attempt|intros _].
  destruct (parse_all cfg rt files) as [[documents code_blocks] elements].
  apply keeps_bindM; [by apply keeps_delete_where|intros _].
  apply keeps_bindM; [by apply keeps_delete_where|intros _].
  apply keeps_bindM; [by apply keeps_delete_where|intros _].
  apply keeps_bindM; [apply keeps_when, keeps_insert_documents|intros _].
  apply keeps_bindM; [by apply keeps_when, keeps_insert_all|intros _].
  by apply keeps_when, keeps_insert_all.
Qed.

(** [update_metadata] either raises before it writes, or writes the record
    with the maximum it has just computed. *)
Lemma update_metadata_outcome files total_files now st r st' :
  update_metadata rt faults files total_files now st = (r, st') →
  (∃ e, r = Raise e ∧ st' = st)
  ∨ (r = Ok tt ∧
     last_ingestion st'
     = Some (MetaRow.mk (isoformat rt (latest_mtime (walk_directory files)))
               total_files now)).
Proof.
  unfold update_metadata, bindM, attempt, modify, raise, ret.
  destruct (faults ScanMtime); [intros [= <- <-]; eauto|].
  destruct (faults UpsertMetadata); [intros [= <- <-]; eauto|].
  intros [= <- <-]. right. split; [done|].
  unfold last_ingestion. simpl. apply lookup_insert_eq.
Qed.

End IngestFacts.

Lemma try_except_raised body handler st e st' :
  body st = (Raise e, st') →
  try_except_file_not_found body handler st
  = match e with
    | FileNotFoundError => handler st'
    | _ => (Raise e, st')
    end.
Proof. unfold try_except_file_not_found. intros ->. by destruct e. Qed.

(** C3.  When an exception is raised by the schema creation, by parsing or
    by the bulk delete and insert, the run ends with the metadata record it
    started with: [update_metadata] comes after all of them.  And when the
    documentation root does not exist, the run returns normally and the store
    is the one it started with: no table is created, emptied or filled. *)
Theorem failed_ingest_keeps_metadata (cfg : Config) (rt : Runtime)
    (faults : Faults) (docs : option (list SourceFile)) (now : string)
    (st : Store) :
  (∀ e, raised_before_metadata cfg rt faults docs st e →
        last_ingestion (ingest_graphql_docs cfg rt faults docs now st).2
        = last_ingestion st)
  ∧ (docs = None →
     ingest_graphql_docs cfg rt faults docs now st = (Ok tt, st)).
Proof.
  split.
  - intros e Hraised. unfold ingest_graphql_docs.
    change (bindM get_store ?k st) with (k st st). cbv beta.
    destruct Hraised as [st1 Hgo Hcreate
                        |files st1 -> Hgo Hcreate Hwalk
                        |files st1 st2 -> Hgo Hcreate Hwalk Hdata];
      rewrite Hgo; change (negb true) with false; cbv iota.
    + rewrite (bindM_run_Raise _ _ _ _ _ Hcreate). simpl.
      eapply create_tables_keeps, Hcreate.
    + rewrite (bindM_run_Ok _ _ _ _ _ Hcreate). cbv beta.
      erewrite try_except_raised
        by (rewrite (bindM_run_Raise _ _ _ _ _ Hwalk); reflexivity).
      transitivity (last_ingestion st1);
        [|eapply create_tables_keeps, Hcreate].
      by destruct e.
    + rewrite (bindM_run_Ok _ _ _ _ _ Hcreate). cbv beta.
      erewrite try_except_raised.
      2:{ rewrite (bindM_run_Ok _ _ _ _ _ Hwalk). cbv beta zeta.
          rewrite (bindM_run_Raise _ _ _ _ _ Hdata). reflexivity. }
      transitivity (last_ingestion st2); [by destruct e|].
      transitivity (last_ingestion st1);
        [eapply ingest_data_keeps, Hdata | eapply create_tables_keeps, Hcreate].
  - by intros ->.
Qed.

(** C3 at work: the bulk insert of the products corpus fails on an empty
    database, and a run without a documentation root. *)
Lemma failed_ingest_keeps_metadata_witness :
  last_ingestion
    (ingest_graphql_docs default_config sample_runtime insert_fails
       (Some [products_file]) "now" empty_store).2
  = last_ingestion empty_store
  ∧ ingest_graphql_docs default_config sample_runtime insert_fails None "now"
      empty_store
    = (Ok tt, empty_store).
Proof.
  split.
  - apply (failed_ingest_keeps_metadata default_config sample_runtime
             insert_fails (Some [products_file]) "now" empty_store)
      with (e := OtherError "OperationalError").
    eapply raised_in_ingest_data;
      [reflexivity | reflexivity | reflexivity | reflexivity
      | vm_compute; reflexivity].
  - by apply (failed_ingest_keeps_metadata default_config sample_runtime
                insert_fails None "now" empty_store).
Defined.

Lemma never_fnf_ret {A} (a : A) : never_file_not_found (ret a).
Proof. by intros st st'. Qed.

Lemma never_fnf_raise {A} kind :
  never_file_not_found (@raise A (OtherError kind)).
Proof. by intros st st'. Qed.

Lemma never_fnf_modify f : never_file_not_found (modify f).
Proof. by intros st st'. Qed.

Lemma never_fnf_bindM {A B} (m : M A) (k : A → M B) :
  never_file_not_found m → (∀ a, never_file_not_found (k a)) →
  never_file_not_found (bindM m k).
Proof.
  intros Hm Hk st st' [H|(a & st1 & _ & H)]%bindM_Raise.
  - by apply Hm in H.
  - by apply Hk in H.
Qed.

Lemma never_fnf_get_bind {B} (k : Store → M B) :
  (∀ db, never_file_not_found (k db)) →
  never_file_not_found (bindM get_store k).
Proof. intros Hk. apply never_fnf_bindM; [by intros st st'|done]. Qed.

Lemma never_fnf_when b m :
  never_file_not_found m → never_file_not_found (when b m).
Proof. destruct b; [done | intros _; apply never_fnf_ret]. Qed.

Section NoFileNotFound.
Variable cfg : Config.
Variable rt : Runtime.
Variable faults : Faults.
Hypothesis faults_ok : ∀ s, faults s ≠ Some FileNotFoundError.

Lemma never_fnf_attempt s : never_file_not_found (attempt faults s).
Proof.
  intros st st'. unfold attempt. pose proof (faults_ok s).
  destruct (faults s) as [e|]; [|done].
  unfold raise. intros [= -> _]. done.
Qed.

Lemma never_fnf_delete_where {A} s (tbl : Store → option (list A)) set :
  never_file_not_found (delete_where faults s tbl set).
Proof.
  apply never_fnf_bindM; [apply never_fnf_attempt|intros _].
  apply never_fnf_get_bind. intros db.
  destruct (tbl db); [apply never_fnf_modify | apply never_fnf_raise].
Qed.

Lemma never_fnf_insert_all {A} s (tbl : Store → option (list A)) set records :
  never_file_not_found (insert_all faults s tbl set records).
Proof.
  apply never_fnf_bindM; [apply never_fnf_attempt|intros _].
  apply never_fnf_get_bind. intros db. apply never_fnf_modify.
Qed.

Lemma never_fnf_ingest_data files :
  never_file_not_found (ingest_data cfg rt faults files).
Proof.
  unfold ingest_data.
  apply never_fnf_bindM; [apply never_fnf_attempt|intros _].
  destruct (parse_all cfg rt files) as [[documents code_blocks] elements].
  do 3 (apply never_fnf_bindM; [apply never_fnf_delete_where|intros _]).
  apply never_fnf_bindM; [apply never_fnf_when|intros _].
  { apply never_fnf_get_bind. intros db. case_decide.
    - apply never_fnf_insert_all.
    - apply never_fnf_bindM;
        [apply never_fnf_attempt | intros _; apply never_fnf_raise]. }
  apply never_fnf_bindM; [apply never_fnf_when, never_fnf_insert_all|intros _].
  apply never_fnf_when, never_fnf_insert_all.
Qed.

Lemma never_fnf_update_metadata files total_files now :
  never_file_not_found (update_metadata rt faults files total_files now).
Proof.
  unfold update_metadata.
  do 2 (apply never_fnf_bindM; [apply never_fnf_attempt|intros _]).
  apply never_fnf_modify.
Qed.

End NoFileNotFound.

(** The skip condition: the stored value equals the recomputed maximum, as
    text. *)
Lemma should_reingest_false rt st files :
  should_reingest rt st (Some files) = false ↔
  ∃ row, last_ingestion st = Some row ∧
         MetaRow.docs_directory_mtime row
         = isoformat rt (latest_mtime (walk_directory files)).
Proof.
  unfold should_reingest, last_ingestion.
  destruct (t_metadata st) as [tbl|]; simpl.
  - destruct (tbl !! "last_ingestion") as [row|].
    + case_decide; split; try done.
      * intros _. by exists row.
      * intros (row' & [= <-] & ?). done.
    + split; [done | by intros (? & ? & _)].
  - split; [done | by intros (? & ? & _)].
Qed.

(** A run that skips does nothing. *)
Lemma ingest_skips cfg rt faults docs now st :
  should_reingest rt st docs = false →
  ingest_graphql_docs cfg rt faults docs now st = (Ok tt, st).
Proof.
  intros H. unfold ingest_graphql_docs.
  change (bindM get_store ?k st) with (k st st). cbv beta. by rewrite H.
Qed.

(** After a pass in which nothing was raised, the skip condition holds for
    the corpus just read. *)
Lemma ingested_is_up_to_date cfg rt faults files now st st1 :
  (∀ s, faults s ≠ Some FileNotFoundError) →
  ingest_graphql_docs cfg rt faults (Some files) now st = (Ok tt, st1) →
  should_reingest rt st1 (Some files) = false.
Proof.
  intros Hf. unfold ingest_graphql_docs.
  change (bindM get_store ?k st) with (k st st). cbv beta.
  destruct (should_reingest rt st (Some files)) eqn:Hgo; simpl negb; cbv iota.
  - intros (? & sa & _ & Htry)%bindM_Ok.
    unfold try_except_file_not_found in Htry.
    match type of Htry with
    | context [match ?body sa with _ => _ end] =>
        destruct (body sa) as [[[]|e] sb] eqn:Hbody
    end.
    + injection Htry as ->.
      apply bindM_Ok in Hbody as (? & s1 & _ & Hbody). cbv zeta in Hbody.
      apply bindM_Ok in Hbody as (? & s2 & _ & Hbody).
      apply update_metadata_outcome in Hbody as [(? & ? & _)|[_ Hrow]];
        [done|].
      apply should_reingest_false. eexists. split; [exact Hrow|done].
    + destruct e; try discriminate. exfalso. revert Hbody.
      apply never_fnf_bindM; [by apply never_fnf_attempt|intros _].
      cbv zeta.
      apply never_fnf_bindM; [by apply never_fnf_ingest_data|intros _].
      by apply never_fnf_update_metadata.
  - by intros [= <-].
Qed.

(** C2.  Take the store a pass leaves when nothing was raised in it.  A
    further run over a corpus whose newest [.md] modification time is the
    same returns at the skip test: the store, and with it the number of
    documents, code blocks and elements, is what it was; the comparison is
    between the ISO text of the recomputed maximum and the stored text. *)
Theorem reingest_unchanged_is_noop (cfg : Config) (rt : Runtime)
    (faults faults' : Faults) (files files' : list SourceFile)
    (now now' : string) (st st1 : Store) :
  (∀ s, faults s ≠ Some FileNotFoundError) →
  ingest_graphql_docs cfg rt faults (Some files) now st = (Ok tt, st1) →
  latest_mtime (walk_directory files') = latest_mtime (walk_directory files) →
  let st2 := (ingest_graphql_docs cfg rt faults' (Some files') now' st1).2 in
  ingest_graphql_docs cfg rt faults' (Some files') now' st1 = (Ok tt, st1)
  ∧ st2 = st1
  ∧ row_count (t_documents st2) = row_count (t_documents st1)
  ∧ row_count (t_code_blocks st2) = row_count (t_code_blocks st1)
  ∧ row_count (t_graphql_elements st2) = row_count (t_graphql_elements st1)
  ∧ (∃ row, last_ingestion st1 = Some row ∧
            MetaRow.docs_directory_mtime row
            = isoformat rt (latest_mtime (walk_directory files'))).
Proof.
  intros Hf Hrun Hmtime st2.
  pose proof (ingested_is_up_to_date _ _ _ _ _ _ _ Hf Hrun) as Hskip.
  assert (should_reingest rt st1 (Some files') = false) as Hskip'.
  { apply should_reingest_false. rewrite Hmtime.
    by apply should_reingest_false. }
  assert (st2 = st1) as Hsame.
  { unfold st2. by rewrite (ingest_skips _ _ _ _ _ _ Hskip'). }
  rewrite Hsame. repeat split.
  - by apply ingest_skips.
  - by apply should_reingest_false.
Qed.

(** C2 at work: the products corpus is ingested into an empty database, the
    file is then rewritten without a change of its modification time, and the
    second run, even with a failing database, leaves everything in place. *)
Lemma reingest_unchanged_is_noop_witness :
  let st1 :=
    (ingest_graphql_docs default_config sample_runtime no_faults
       (Some [products_file]) "first" empty_store).2 in
  let st2 :=
    (ingest_graphql_docs default_config sample_runtime insert_fails
       (Some [products_file_touched]) "second" st1).2 in
  ingest_graphql_docs default_config sample_runtime insert_fails
    (Some [products_file_touched]) "second" st1 = (Ok tt, st1)
  ∧ st2 = st1
  ∧ row_count (t_documents st2) = row_count (t_documents st1)
  ∧ row_count (t_code_blocks st2) = row_count (t_code_blocks st1)
  ∧ row_count (t_graphql_elements st2) = row_count (t_graphql_elements st1)
  ∧ (∃ row, last_ingestion st1 = Some row ∧
            MetaRow.docs_directory_mtime row
            = isoformat sample_runtime
                (latest_mtime (walk_directory [products_file_touched]))).
Proof.
  apply (reingest_unchanged_is_noop default_config sample_runtime no_faults
           insert_fails [products_file] [products_file_touched]
           "first" "second" empty_store).
  - intros s. discriminate.
  - vm_compute. reflexivity.
  - reflexivity.
Defined.

(** * Properties of the query layer *)

Lemma Forall_filter_keep {A} (P : A → Prop) (f : A → bool) (l : list A) :
  Forall P l → Forall P (List.filter f l).
Proof.
  rewrite !Forall_forall. intros H x Hx. apply H.
  apply list_elem_of_In. apply list_elem_of_In in Hx.
  by apply filter_In in Hx as [? _].
Qed.

Lemma Forall_filter_true {A} (f : A → bool) (l : list A) :
  Forall (λ x, f x = true) (List.filter f l).
Proof.
  apply Forall_forall. intros x Hx. apply list_elem_of_In in Hx.
  by apply filter_In in Hx as [_ ?].
Qed.

Lemma filter_none {A} (f : A → bool) (l : list A) :
  (∀ x, x ∈ l → f x = false) → List.filter f l = [].
Proof.
  induction l as [|x l IH]; intros H; simpl; [done|].
  rewrite (H x) by (apply elem_of_cons; by left).
  apply IH. intros y Hy. apply H. apply elem_of_cons. by right.
Qed.

Lemma Forall_filter_if {A} (P : A → Prop) arg keep (l : list A) :
  Forall P l → Forall P (filter_if arg keep l).
Proof.
  intros H. unfold filter_if. destruct arg as [v|]; [|done].
  destruct (Py.nonempty v); [by apply Forall_filter_keep | done].
Qed.

Lemma slice_to_nonneg {A} (k : Z) (xs : list A) :
  0 ≤ k → Py.slice_to k xs = take (Z.to_nat k) xs.
Proof. intros Hk. unfold Py.slice_to. by destruct (Z.leb_spec 0 k); [|lia]. Qed.

Lemma nonempty_true (s : string) : s ≠ "" → Py.nonempty s = true.
Proof. by destruct s. Qed.

(** C1.  With a category filter in force (a non-empty text: Python takes the
    empty text for no filter) and a result cap that is a count, every
    document keyword search returns has the category of the filter, and there
    are at most [DB_TOP_K] of them, whatever the rows and however many of
    them the full-text engine hands back: the filter and the cut are applied
    to the engine's list. *)
Theorem search_documentation_category_filter (cfg : Config)
    (fts_search : list DocRow.t → string → Z → result (list DocRow.t))
    (db : Store) (queries : list string) (category : string)
    (subcategory content_type : option string) (results : list DocRow.t) :
  category ≠ "" →
  0 ≤ DB_TOP_K cfg →
  search_results cfg fts_search db queries (Some category) subcategory
    content_type = Ok results →
  Forall (λ r, DocRow.category r = category) results
  ∧ Z.of_nat (length results) ≤ DB_TOP_K cfg.
Proof.
  intros Hc Hk. unfold search_results.
  destruct (t_documents db) as [rows|]; [|discriminate].
  destruct (t_documents_fts db); [|discriminate].
  intros (hits & _ & [= <-])%bind_Ok.
  rewrite slice_to_nonneg by done. split.
  - apply Forall_take. do 2 apply Forall_filter_if.
    unfold filter_if. rewrite nonempty_true by done.
    eapply Forall_impl; [apply Forall_filter_true|].
    intros r. apply String.eqb_eq.
  - match goal with
    | |- context [take ?n ?l] => pose proof (firstn_le_length n l)
    end.
    lia.
Qed.

(** C1 at work: a cap of two, four rows that all hit, three of them in the
    category asked for. *)
Lemma search_documentation_category_filter_witness :
  ∃ results,
    search_results small_config every_row_hits sample_db ["cart"; "query"]
      (Some "schema") None None = Ok results
    ∧ length results = 2%nat
    ∧ Forall (λ r, DocRow.category r = "schema") results
    ∧ Z.of_nat (length results) ≤ DB_TOP_K small_config.
Proof.
  eexists. split; [vm_compute; reflexivity|]. split; [reflexivity|].
  apply (search_documentation_category_filter small_config every_row_hits
           sample_db ["cart"; "query"] "schema" None None).
  - discriminate.
  - vm_compute. discriminate.
  - vm_compute. reflexivity.
Defined.

Lemma append_assoc (a b c : string) : (a +:+ b) +:+ c = a +:+ b +:+ c.
Proof.
  induction a as [|x a IH]; [reflexivity|].
  change (String x ((a +:+ b) +:+ c) = String x (a +:+ b +:+ c)).
  by rewrite IH.
Qed.

(** C8.  On a store that holds a corpus, asking for a path no document has
    returns normally, with the message "Document not found" and the advice to
    use [search_documentation]: the empty cursor is caught, nothing is
    raised. *)
Theorem get_document_not_found (db : Store) (rows : list DocRow.t)
    (file_path : string) :
  t_documents db = Some rows →
  (∀ r, r ∈ rows → DocRow.file_path r ≠ file_path) →
  ∃ msg,
    get_document db file_path = Ok msg
    ∧ msg = "Document not found: " +:+ file_path +:+ LFs +:+ LFs +:+
            "Tip: Use search_documentation to find the correct file path."
    ∧ is_substring "Document not found" msg
    ∧ is_substring "search_documentation" msg.
Proof.
  intros Hrows Hnone. eexists. split; [|split; [reflexivity|split]].
  - unfold get_document, select_documents. rewrite Hrows. simpl.
    rewrite filter_none; [reflexivity|].
    intros r Hr. apply String.eqb_neq. by apply Hnone.
  - by exists "", (": " +:+ file_path +:+ LFs +:+ LFs +:+
      "Tip: Use search_documentation to find the correct file path.").
  - exists ("Document not found: " +:+ file_path +:+ LFs +:+ LFs +:+ "Tip: Use "),
      " to find the correct file path.".
    change ("Document not found: " +:+ ?x)
      with ("Document not found: " +:+ x).
    rewrite !append_assoc. reflexivity.
Qed.

(** C8 at work: the sample corpus has no [missing.md]. *)
Lemma get_document_not_found_witness :
  ∃ msg,
    get_document sample_db "missing.md" = Ok msg
    ∧ msg = "Document not found: " +:+ "missing.md" +:+ LFs +:+ LFs +:+
            "Tip: Use search_documentation to find the correct file path."
    ∧ is_substring "Document not found" msg
    ∧ is_substring "search_documentation" msg.
Proof.
  apply (get_document_not_found sample_db (default [] (t_documents sample_db))).
  - vm_compute. reflexivity.
  - intros r Hr. vm_compute in Hr.
    repeat (apply elem_of_cons in Hr as [->|Hr]; [discriminate|]).
    by apply elem_of_nil in Hr.
Defined.

Lemma dedup_loop_sublist seen docs : dedup_loop seen docs `sublist_of` docs.
Proof.
  revert seen. induction docs as [|doc docs IH]; intros seen; simpl.
  - constructor.
  - case_decide; [apply sublist_cons | apply sublist_skip]; apply IH.
Qed.

Lemma dedup_loop_fresh seen docs doc :
  doc ∈ dedup_loop seen docs → DocRow.file_path doc ∉ seen.
Proof.
  revert seen. induction docs as [|d docs IH]; intros seen; simpl.
  - by intros ?%elem_of_nil.
  - case_decide as Hd; [apply IH|].
    intros [->|Hin]%elem_of_cons; [done|].
    apply IH in Hin. set_solver.
Qed.

Lemma dedup_loop_NoDup seen docs :
  NoDup (DocRow.file_path <$> dedup_loop seen docs).
Proof.
  revert seen. induction docs as [|d docs IH]; intros seen; simpl.
  - constructor.
  - case_decide; [apply IH|].
    rewrite fmap_cons. apply NoDup_cons. split; [|apply IH].
    intros (d' & Hpath & Hin%dedup_loop_fresh)%list_elem_of_fmap.
    set_solver.
Qed.

(** Each path of the input is still there after deduplication. *)
Lemma dedup_loop_complete seen docs doc :
  doc ∈ docs → DocRow.file_path doc ∉ seen →
  ∃ doc', doc' ∈ dedup_loop seen docs
          ∧ DocRow.file_path doc' = DocRow.file_path doc.
Proof.
  revert seen. induction docs as [|d docs IH]; intros seen; simpl.
  - by intros ?%elem_of_nil.
  - intros [->|Hin]%elem_of_cons Hfresh; case_decide as Hd; try done.
    + exists d. split; [apply elem_of_cons; by left | done].
    + by apply IH.
    + destruct (decide (DocRow.file_path doc = DocRow.file_path d)) as [Heq|Hne].
      * exists d. split; [apply elem_of_cons; by left | done].
      * destruct (IH ({[DocRow.file_path d]} ∪ seen) Hin) as (doc' & ? & ?);
          [rewrite elem_of_union, elem_of_singleton; tauto|].
        exists doc'. split; [apply elem_of_cons; by right | done].
Qed.

(** What comes first in the input comes first in the result. *)
Lemma dedup_loop_app seen docs1 docs2 :
  ∃ kept, dedup_loop seen (docs1 ++ docs2) = dedup_loop seen docs1 ++ kept
          ∧ kept `sublist_of` docs2.
Proof.
  revert seen. induction docs1 as [|d docs1 IH]; intros seen; simpl.
  - eexists. split; [done | apply dedup_loop_sublist].
  - case_decide; [apply IH|].
    destruct (IH ({[DocRow.file_path d]} ∪ seen)) as (kept & -> & ?).
    by exists kept.
Qed.

Lemma sublist_Forall {A} (P : A → Prop) (l1 l2 : list A) :
  l1 `sublist_of` l2 → Forall P l2 → Forall P l1.
Proof.
  intros Hsub. rewrite !Forall_forall. intros H x Hx.
  eapply H, elem_of_sublist; eauto.
Qed.

Section RelatedFacts.
Variable rt : Runtime.
Variable db : Store.
Variable rows : list DocRow.t.
Hypothesis stored : t_documents db = Some rows.

Lemma select_documents_stored where_ :
  select_documents db where_ = Ok (List.filter where_ rows).
Proof. unfold select_documents. by rewrite stored. Qed.

Lemma take_filter_other n (f : DocRow.t → bool) file_path :
  Forall (λ d, DocRow.file_path d ≠ file_path)
    (take n (List.filter
               (λ r, f r && negb (String.eqb (DocRow.file_path r) file_path))
               rows)).
Proof.
  apply Forall_take. eapply Forall_impl; [apply Forall_filter_true|].
  intros r [_ H%negb_true_iff]%andb_prop. simpl in H.
  by apply String.eqb_neq.
Qed.

Lemma related_by_category_stored source file_path :
  ∃ by_category,
    related_by_category db source file_path = Ok by_category
    ∧ Forall (λ d, DocRow.file_path d ≠ file_path) by_category
    ∧ Forall (λ d, DocRow.category d = DocRow.category source) by_category.
Proof.
  unfold related_by_category. rewrite select_documents_stored. simpl.
  eexists. split; [done|]. split.
  - apply take_filter_other.
  - apply Forall_take. eapply Forall_impl; [apply Forall_filter_true|].
    intros r [[H _]%andb_prop _]%andb_prop. simpl in H.
    by apply String.eqb_eq.
Qed.

Lemma keyword_loop_stored keywords file_path :
  ∃ by_keywords,
    keyword_loop db keywords file_path = Ok by_keywords
    ∧ Forall (λ d, DocRow.file_path d ≠ file_path) by_keywords.
Proof.
  induction keywords as [|keyword keywords (others & IH & Hothers)]; simpl.
  - by exists [].
  - unfold keyword_matches. rewrite select_documents_stored. simpl.
    rewrite IH. simpl. eexists. split; [done|].
    apply Forall_app. split; [apply take_filter_other | done].
Qed.

Lemma next_row_stored file_path :
  (∃ r, r ∈ rows ∧ DocRow.file_path r = file_path) →
  ∃ source,
    next_row (List.filter (by_file_path file_path) rows) = Ok source.
Proof.
  intros (r & Hr & Hpath).
  destruct (List.filter (by_file_path file_path) rows) as [|source ?] eqn:Hf.
  - exfalso. assert (In r []) as []. rewrite <- Hf.
    apply filter_In. split; [by apply list_elem_of_In|].
    by apply String.eqb_eq.
  - by exists source.
Qed.

End RelatedFacts.

(** C5.  For a store that holds a corpus and a path one of its documents
    has, related-document discovery returns a list in which no document has
    the path asked for, no path occurs twice, and there are at most five
    entries.  The list is the first five of the deduplicated concatenation of
    the two branches: it keeps the order of that concatenation, the category
    branch's results come first, and before the cut every path of either
    branch is present. *)
Theorem related_documents_sound (rt : Runtime) (db : Store)
    (rows : list DocRow.t) (file_path : string) :
  t_documents db = Some rows →
  (∃ r, r ∈ rows ∧ DocRow.file_path r = file_path) →
  ∃ source by_category by_keywords all_related,
    related_documents rt db file_path = Ok (Some (source, all_related))
    ∧ related_by_category db source file_path = Ok by_category
    ∧ related_by_keywords rt db source file_path = Ok by_keywords
    ∧ Forall (λ d, DocRow.file_path d ≠ file_path) all_related
    ∧ NoDup (DocRow.file_path <$> all_related)
    ∧ (length all_related ≤ 5)%nat
    ∧ all_related `sublist_of` (by_category ++ by_keywords)
    ∧ (∃ kept, all_related = take 5 (dedup_loop ∅ by_category ++ kept)
               ∧ kept `sublist_of` by_keywords)
    ∧ (∃ deduplicated,
         all_related = take 5 deduplicated
         ∧ ∀ d, d ∈ by_category ++ by_keywords →
             ∃ d', d' ∈ deduplicated
                   ∧ DocRow.file_path d' = DocRow.file_path d).
Proof.
  intros Hstored Hpresent.
  destruct (next_row_stored rows file_path Hpresent) as [source Hsource].
  destruct (related_by_category_stored db rows Hstored source file_path)
    as (by_category & Hcat & Hcat_other & _).
  destruct (keyword_loop_stored db rows Hstored
              (take 3 (set_list (set_order rt) (DocRow.keywords source)))
              file_path) as (by_keywords & Hkw & Hkw_other).
  exists source, by_category, by_keywords,
    (combine_related by_category by_keywords).
  assert (combine_related by_category by_keywords
          `sublist_of` (by_category ++ by_keywords)) as Hsub.
  { unfold combine_related. etransitivity; [apply sublist_take|].
    apply dedup_loop_sublist. }
  split; [|split; [done|split; [done|repeat split]]].
  - unfold related_documents.
    rewrite (select_documents_stored db rows Hstored). simpl.
    rewrite Hsource, Hcat. simpl.
    unfold related_by_keywords in *. by rewrite Hkw.
  - eapply sublist_Forall; [exact Hsub|].
    apply Forall_app. by split.
  - unfold combine_related.
    apply (sublist_NoDup _
             (DocRow.file_path <$> dedup_loop ∅ (by_category ++ by_keywords)));
      first [apply dedup_loop_NoDup | apply fmap_sublist, sublist_take].
  - apply firstn_le_length.
  - exact Hsub.
  - destruct (dedup_loop_app ∅ by_category by_keywords) as (kept & Heq & ?).
    exists kept. unfold combine_related. by rewrite Heq.
  - exists (dedup_loop ∅ (by_category ++ by_keywords)). split; [done|].
    intros d Hd. apply dedup_loop_complete; [done | set_solver].
Qed.

(** C5 at work: the products page of the sample corpus. *)
Lemma related_documents_sound_witness :
  ∃ source by_category by_keywords all_related,
    related_documents sample_runtime sample_db
      "schema/products/queries/products.md" = Ok (Some (source, all_related))
    ∧ related_by_category sample_db source
        "schema/products/queries/products.md" = Ok by_category
    ∧ related_by_keywords sample_runtime sample_db source
        "schema/products/queries/products.md" = Ok by_keywords
    ∧ Forall (λ d, DocRow.file_path d ≠ "schema/products/queries/products.md")
        all_related
    ∧ NoDup (DocRow.file_path <$> all_related)
    ∧ (length all_related ≤ 5)%nat
    ∧ all_related `sublist_of` (by_category ++ by_keywords)
    ∧ (∃ kept, all_related = take 5 (dedup_loop ∅ by_category ++ kept)
               ∧ kept `sublist_of` by_keywords)
    ∧ (∃ deduplicated,
         all_related = take 5 deduplicated
         ∧ ∀ d, d ∈ by_category ++ by_keywords →
             ∃ d', d' ∈ deduplicated
                   ∧ DocRow.file_path d' = DocRow.file_path d).
Proof.
  apply (related_documents_sound sample_runtime sample_db
           (default [] (t_documents sample_db))).
  - vm_compute. reflexivity.
  - eexists. split; [vm_compute; apply elem_of_cons; by left | reflexivity].
Defined.

(** C6 (counterexample).  In the sample corpus the cart page is related to
    the products page by its keyword alone, being of another subcategory,
    yet it shares the category "schema" and is labelled "Same category":
    labels do not follow branches. *)
Lemma keyword_only_result_labelled_same_category :
  ∃ source all_related by_category by_keywords,
    related_documents sample_runtime sample_db
      "schema/products/queries/products.md" = Ok (Some (source, all_related))
    ∧ related_by_category sample_db source
        "schema/products/queries/products.md" = Ok by_category
    ∧ related_by_keywords sample_runtime sample_db source
        "schema/products/queries/products.md" = Ok by_keywords
    ∧ ¬ labelled_by_branch source by_category by_keywords.
Proof.
  eexists _, _, _, _.
  split; [vm_compute; reflexivity|].
  split; [vm_compute; reflexivity|].
  split; [vm_compute; reflexivity|].
  intros Hlabels.
  match type of Hlabels with
  | labelled_by_branch _ _ (?doc :: _) =>
      destruct (Hlabels doc) as [_ Hkeyword]
  end.
  discriminate Hkeyword.
  - apply elem_of_cons. by left.
  - intros [?|[]%elem_of_nil]%elem_of_cons. discriminate.
Qed.

(** C6 (amended).  The label is decided by the category: a result reads
    "Same category" exactly when its category is the source document's, and
    "Similar content" exactly when it is not.  So every result of the
    same-category-and-subcategory branch reads "Same category", and a result
    of the keyword branch alone reads "Similar content" when its category
    differs from the source's and "Same category" when it is the same. *)
Theorem relationship_label_by_category (db : Store) (source doc : DocRow.t)
    (file_path : string) (by_category : list DocRow.t) :
  related_by_category db source file_path = Ok by_category →
  (doc ∈ by_category → relationship source doc = "Same category")
  ∧ (relationship source doc = "Same category"
     ↔ DocRow.category doc = DocRow.category source)
  ∧ (relationship source doc = "Similar content"
     ↔ DocRow.category doc ≠ DocRow.category source).
Proof.
  intros Hcat.
  assert (relationship source doc = "Same category"
          ↔ DocRow.category doc = DocRow.category source) as Hsame.
  { unfold relationship.
    destruct (String.eqb_spec (DocRow.category doc) (DocRow.category source));
      split; try done. }
  split; [|split; [done|]].
  - intros Hin. apply Hsame.
    unfold related_by_category, select_documents in Hcat.
    destruct (t_documents db) as [rows|]; [|discriminate].
    injection Hcat as <-.
    pose proof (related_by_category_stored (with_documents (Some rows) db)
                  rows eq_refl source file_path) as (l & Hl & _ & Hall).
    unfold related_by_category, select_documents in Hl. simpl in Hl.
    injection Hl as <-.
    rewrite Forall_forall in Hall. by apply Hall.
  - unfold relationship.
    destruct (String.eqb_spec (DocRow.category doc) (DocRow.category source));
      split; try done.
Qed.

(** C6 at work: the cart page and the caching page against the products page
    of the sample corpus. *)
Lemma relationship_label_by_category_witness :
  ∃ source by_category cart_page,
    related_by_category sample_db source
      "schema/products/queries/products.md" = Ok by_category
    ∧ DocRow.file_path cart_page = "schema/cart/queries/cart.md"
    ∧ ¬ (cart_page ∈ by_category)
    ∧ (relationship source cart_page = "Same category"
       ↔ DocRow.category cart_page = DocRow.category source)
    ∧ relationship source cart_page = "Same category".
Proof.
  pose (rows := default [] (t_documents sample_db)).
  pose (source := default (DocRow.mk "" "" "" None [] "" None "" "" [] "" "")
                    (rows !! 0%nat)).
  pose (cart_page := default source (rows !! 2%nat)).
  exists source, (take 5 (List.filter
                    (λ r, sql_eq (Some (DocRow.category r))
                            (Some (DocRow.category source))
                          && sql_eq (DocRow.subcategory r)
                               (DocRow.subcategory source)
                          && negb (String.eqb (DocRow.file_path r)
                                     "schema/products/queries/products.md"))
                    rows)), cart_page.
  assert (related_by_category sample_db source
            "schema/products/queries/products.md"
          = Ok (take 5 (List.filter
                    (λ r, sql_eq (Some (DocRow.category r))
                            (Some (DocRow.category source))
                          && sql_eq (DocRow.subcategory r)
                               (DocRow.subcategory source)
                          && negb (String.eqb (DocRow.file_path r)
                                     "schema/products/queries/products.md"))
                    rows))) as Hcat by reflexivity.
  destruct (relationship_label_by_category sample_db source cart_page
              "schema/products/queries/products.md" _ Hcat)
    as (_ & Hsame & _).
  split; [exact Hcat|]. split; [reflexivity|]. split.
  - vm_compute. intros [?|[]%elem_of_nil]%elem_of_cons. discriminate.
  - split; [exact Hsame|]. apply Hsame. reflexivity.
Defined.

Lemma sql_eq_null column : sql_eq column None = false.
Proof. by destruct column. Qed.

(** C10.  A path of fewer than three segments gives no subcategory; for a
    source document without subcategory the same-category-and-subcategory
    query selects no row, the comparison with NULL being true of none; so
    the related documents returned for it are the first five of the
    deduplicated keyword matches, each of them a keyword match. *)
Theorem null_subcategory_only_keyword_matches (rt : Runtime) (db : Store)
    (file_path : string) (source : DocRow.t) (all_related : list DocRow.t) :
  (∀ parts, (length parts < 3)%nat →
            (extract_category_from_path parts).2 = None)
  ∧ (DocRow.subcategory source = None →
     related_documents rt db file_path = Ok (Some (source, all_related)) →
     related_by_category db source file_path = Ok []
     ∧ ∃ by_keywords,
         related_by_keywords rt db source file_path = Ok by_keywords
         ∧ all_related = take 5 (dedup_loop ∅ by_keywords)
         ∧ ∀ d, d ∈ all_related → d ∈ by_keywords).
Proof.
  split.
  - intros parts Hlen. unfold extract_category_from_path.
    case_decide; [done|]. simpl. case_decide; [lia | done].
  - intros Hnull. unfold related_documents.
    intros (found & Hfound & H)%bind_Ok.
    destruct (next_row found) as [source'|[]]; try discriminate.
    apply bind_Ok in H as (by_category & Hcat & H).
    apply bind_Ok in H as (by_keywords & Hkw & [= -> <-]).
    assert (by_category = []) as ->.
    { unfold related_by_category, select_documents in Hcat.
      destruct (t_documents db) as [rows|]; [|discriminate].
      injection Hcat as <-. rewrite filter_none; [done|].
      intros r _. by rewrite Hnull, sql_eq_null, andb_false_r. }
    split; [done|]. exists by_keywords. repeat split; [done|].
    intros d Hd. eapply elem_of_sublist; [exact Hd|].
    unfold combine_related. simpl.
    etransitivity; [apply sublist_take | apply dedup_loop_sublist].
Qed.

(** C10 at work: the caching page of the sample corpus sits right under
    "usage" and has no subcategory. *)
Lemma null_subcategory_only_keyword_matches_witness :
  ∃ source all_related,
    related_documents sample_runtime sample_db "usage/caching.md"
    = Ok (Some (source, all_related))
    ∧ (extract_category_from_path ["usage"; "caching.md"]).2 = None
    ∧ DocRow.subcategory source = None
    ∧ related_by_category sample_db source "usage/caching.md" = Ok []
    ∧ ∃ by_keywords,
        related_by_keywords sample_runtime sample_db source "usage/caching.md"
        = Ok by_keywords
        ∧ all_related = take 5 (dedup_loop ∅ by_keywords)
        ∧ ∀ d, d ∈ all_related → d ∈ by_keywords.
Proof.
  eexists _, _. split; [vm_compute; reflexivity|].
  match goal with
  | |- _ ∧ DocRow.subcategory ?source = None ∧ _ ∧
       ∃ _, _ ∧ ?all = _ ∧ _ =>
      destruct (null_subcategory_only_keyword_matches sample_runtime
                  sample_db "usage/caching.md" source all) as [Hparts Hquery]
  end.
  split; [apply Hparts; simpl; lia|].
  split; [reflexivity|].
  apply Hquery; [reflexivity | vm_compute; reflexivity].
Defined.

(** * Further properties of the parser *)

Lemma lower_char_idem c : Py.lower_char (Py.lower_char c) = Py.lower_char c.
Proof. by destruct c as [[] [] [] [] [] [] [] []]. Qed.

Lemma lower_idem s : Py.lower (Py.lower s) = Py.lower s.
Proof.
  induction s as [|c s IH]; simpl; [done|]. by rewrite lower_char_idem, IH.
Qed.

Lemma code_lines_from_spec rest :
  let body := code_lines_from rest in
  Forall (λ l, is_fence l = false) body
  ∧ body = take (length body) rest
  ∧ match rest !! length body with
    | Some closing => is_fence closing = true
    | None => True
    end.
Proof.
  induction rest as [|l rest (IH1 & IH2 & IH3)]; simpl; [done|].
  destruct (is_fence l) eqn:Hl; simpl; [done|].
  repeat split; [by constructor | by f_equal | done].
Qed.

(** Each block the loop returns is read off one fence line at or after the
    index the loop starts from. *)
Lemma blocks_loop_spec fuel doc_id lines i block :
  block ∈ blocks_loop fuel doc_id lines i →
  ∃ (j : nat) line,
    (i ≤ j)%nat ∧ lines !! j = Some line ∧ is_fence line = true ∧
    block = CodeBlock.mk doc_id
              (if Py.nonempty (fence_tag line) then fence_tag line else "text")
              (nl (code_lines_from (drop (S j) lines)))
              (extract_context lines (Z.of_nat j))
              (S (S j)).
Proof.
  revert i. induction fuel as [|fuel IH]; intros i; simpl.
  - by intros ?%elem_of_nil.
  - destruct (lines !! i) as [line|] eqn:Hi; [|by intros ?%elem_of_nil].
    destruct (is_fence line) eqn:Hf.
    + intros [->|Hin]%elem_of_cons.
      * exists i, line. repeat split; try done.
        unfold fence_tag, nl, LFs. do 2 f_equal. lia.
      * apply IH in Hin as (j & l & ? & ?). exists j, l. split; [lia|done].
    + intros Hin. apply IH in Hin as (j & l & ? & ?).
      exists j, l. split; [lia|done].
Qed.

(** Line numbers go up along the result. *)
Lemma blocks_loop_sorted fuel doc_id lines i :
  StronglySorted lt (CodeBlock.line_number <$> blocks_loop fuel doc_id lines i).
Proof.
  revert i. induction fuel as [|fuel IH]; intros i; simpl; [constructor|].
  destruct (lines !! i) as [line|]; [|constructor].
  destruct (is_fence line); [|apply IH].
  rewrite fmap_cons. constructor; [apply IH|].
  apply Forall_forall. intros n (b & -> & Hb)%list_elem_of_fmap.
  apply blocks_loop_spec in Hb as (j & l & Hj & _ & _ & ->). simpl. lia.
Qed.

(** X1.  Every code block carries a language tag that is not empty and is in
    lower case; it is "text" when the opening fence declares no tag, and the
    lower-cased tag of the fence otherwise. *)
Theorem code_block_language (markdown doc_id : string)
    (block : CodeBlock.t) :
  block ∈ extract_code_blocks markdown doc_id →
  CodeBlock.language block ≠ ""
  ∧ Py.lower (CodeBlock.language block) = CodeBlock.language block
  ∧ ∃ fence,
      Py.split LF markdown !! (CodeBlock.line_number block - 2)%nat = Some fence
      ∧ is_fence fence = true
      ∧ (Py.strip (Py.drop_chars 3 (Py.strip fence)) = "" →
         CodeBlock.language block = "text")
      ∧ (Py.strip (Py.drop_chars 3 (Py.strip fence)) ≠ "" →
         CodeBlock.language block
         = Py.lower (Py.strip (Py.drop_chars 3 (Py.strip fence)))).
Proof.
  intros (j & line & _ & Hj & Hf & ->)%blocks_loop_spec.
  cbn [CodeBlock.language CodeBlock.line_number].
  assert (Py.nonempty (fence_tag line) = true
          ↔ Py.strip (Py.drop_chars 3 (Py.strip line)) ≠ "") as Htag.
  { unfold fence_tag.
    by destruct (Py.strip (Py.drop_chars 3 (Py.strip line))). }
  split; [|split].
  - by destruct (fence_tag line).
  - destruct (Py.nonempty (fence_tag line)); [apply lower_idem | done].
  - exists line. replace (S (S j) - 2)%nat with j by lia.
    split; [done|]. split; [done|].
    destruct (Py.nonempty (fence_tag line)) eqn:Hne; split; try done.
    + intros H. by apply Htag in H.
    + intros H. apply Htag in H. congruence.
Qed.

Lemma code_block_language_witness :
  let block := CodeBlock.mk "doc" "json" "{}" (Some "```JSON") 2 in
  CodeBlock.language block ≠ ""
  ∧ Py.lower (CodeBlock.language block) = CodeBlock.language block
  ∧ ∃ fence,
      Py.split LF (nl ["  ```JSON "; "{}"; "```"])
        !! (CodeBlock.line_number block - 2)%nat = Some fence
      ∧ is_fence fence = true
      ∧ (Py.strip (Py.drop_chars 3 (Py.strip fence)) = "" →
         CodeBlock.language block = "text")
      ∧ (Py.strip (Py.drop_chars 3 (Py.strip fence)) ≠ "" →
         CodeBlock.language block
         = Py.lower (Py.strip (Py.drop_chars 3 (Py.strip fence)))).
Proof.
  apply (code_block_language (nl ["  ```JSON "; "{}"; "```"]) "doc").
  vm_compute. apply elem_of_cons. by left.
Defined.

(** X2.  Every code block belongs to the document it was cut from; its line
    number is the 1-based number of the line after its opening fence; its
    code is the lines from there up to the next fence line, or to the end of
    the body when no fence follows, none of them a fence; and the blocks
    come in increasing line order. *)
Theorem code_block_layout (markdown doc_id : string) :
  let lines := Py.split LF markdown in
  let blocks := extract_code_blocks markdown doc_id in
  StronglySorted lt (CodeBlock.line_number <$> blocks)
  ∧ ∀ block, block ∈ blocks →
      CodeBlock.document_id block = doc_id
      ∧ (2 ≤ CodeBlock.line_number block ≤ S (length lines))%nat
      ∧ ∃ body,
          CodeBlock.code block = nl body
          ∧ body = take (length body)
                     (drop (CodeBlock.line_number block - 1) lines)
          ∧ Forall (λ l, is_fence l = false) body
          ∧ match lines !! (CodeBlock.line_number block - 1 + length body)%nat with
            | Some closing => is_fence closing = true
            | None => True
            end.
Proof.
  intros lines blocks. split; [apply blocks_loop_sorted|].
  intros block (j & line & _ & Hj & Hf & ->)%blocks_loop_spec.
  cbn [CodeBlock.language CodeBlock.line_number CodeBlock.code
       CodeBlock.document_id].
  apply lookup_lt_Some in Hj. fold lines in Hj |- *.
  split; [done|]. split; [lia|].
  exists (code_lines_from (drop (S j) lines)).
  replace (S (S j) - 1)%nat with (S j) by lia.
  destruct (code_lines_from_spec (drop (S j) lines)) as (H1 & H2 & H3).
  repeat split; try done.
  rewrite lookup_drop in H3. exact H3.
Qed.

Lemma count_fences_cons line rest :
  count_fences (line :: rest)
  = ((if is_fence line then 1 else 0) + count_fences rest)%nat.
Proof. unfold count_fences. simpl. by destruct (is_fence line). Qed.

(** The fences after an opening fence: the closing one, if there is one,
    and those behind it. *)
Lemma count_fences_after_body rest :
  count_fences rest
  = match rest !! length (code_lines_from rest) with
    | Some _ => S (count_fences (drop (S (length (code_lines_from rest))) rest))
    | None => O
    end.
Proof.
  induction rest as [|l rest IH]; [done|].
  rewrite count_fences_cons. simpl.
  destruct (is_fence l) eqn:Hl; simpl; [by rewrite drop_0|].
  by rewrite IH.
Qed.

Lemma count_fences_nil : count_fences [] = O.
Proof. reflexivity. Qed.

Lemma blocks_loop_count fuel doc_id lines i :
  (length lines - i ≤ fuel)%nat →
  (count_fences (drop i lines)
   ≤ 2 * length (blocks_loop fuel doc_id lines i)
   ≤ count_fences (drop i lines) + 1)%nat.
Proof.
  revert i. induction fuel as [|fuel IH]; intros i Hfuel; cbn [blocks_loop].
  - rewrite drop_ge, count_fences_nil by lia. simpl. lia.
  - destruct (lines !! i) as [line|] eqn:Hi.
    2:{ apply lookup_ge_None_1 in Hi.
        rewrite drop_ge, count_fences_nil by lia. simpl. lia. }
    rewrite (drop_S _ _ _ Hi), count_fences_cons.
    apply lookup_lt_Some in Hi.
    destruct (is_fence line).
    + rewrite (count_fences_after_body (drop (S i) lines)).
      rewrite lookup_drop, drop_drop.
      set (body := code_lines_from (drop (S i) lines)).
      pose proof (IH (S (S i + length body)) ltac:(lia)) as IH'.
      cbn [length].
      replace (S i + S (length body))%nat with (S (S i + length body))
        by lia.
      destruct (lines !! (S i + length body)%nat) as [closing|] eqn:Hc.
      * lia.
      * apply lookup_ge_None_1 in Hc.
        rewrite drop_ge, count_fences_nil in IH' by lia. lia.
    + specialize (IH (S i) ltac:(lia)). lia.
Qed.

(** X3.  Fence lines pair up from the top: the number of code blocks is half
    the number of fence lines, rounded up.  A fence that is never closed
    still opens a block, which then runs to the end of the body. *)
Theorem code_block_count (markdown doc_id : string) :
  let fences := count_fences (Py.split LF markdown) in
  let blocks := length (extract_code_blocks markdown doc_id) in
  (fences ≤ 2 * blocks ≤ fences + 1)%nat.
Proof.
  intros fences blocks.
  pose proof (blocks_loop_count (length (Py.split LF markdown)) doc_id
                (Py.split LF markdown) 0 ltac:(lia)) as H.
  rewrite drop_0 in H. exact H.
Qed.

(** * Further properties of the schema-element heuristic *)

Lemma append_cons c (a b : string) : String c a +:+ b = String c (a +:+ b).
Proof. reflexivity. Qed.

Lemma span_chars_spec p s :
  s = (span_chars p s).1 +:+ (span_chars p s).2
  ∧ all_chars p (span_chars p s).1 = true
  ∧ stops p (span_chars p s).2 = true.
Proof.
  induction s as [|c s (IH1 & IH2 & IH3)]; simpl; [done|].
  destruct (p c) eqn:Hc; simpl.
  - destruct (span_chars p s) as [a b]. simpl in *.
    rewrite append_cons, <- IH1, Hc. done.
  - by rewrite Hc.
Qed.

Lemma span_chars_app p a b :
  all_chars p a = true → stops p b = true → span_chars p (a +:+ b) = (a, b).
Proof.
  intros Ha Hb. induction a as [|c a IH]; simpl in *.
  - destruct b as [|d b]; [done|]. simpl in *.
    by destruct (p d).
  - apply andb_prop in Ha as [-> Ha].
    change (String c a +:+ b) with (String c (a +:+ b)). simpl.
    by rewrite IH.
Qed.

Lemma startswith_app p s : Py.startswith p (p +:+ s) = true.
Proof.
  induction p as [|c p IH]; [done|].
  change (String c p +:+ s) with (String c (p +:+ s)). simpl.
  by rewrite Ascii.eqb_refl.
Qed.

Lemma drop_chars_app p s : Py.drop_chars (String.length p) (p +:+ s) = s.
Proof. induction p as [|c p IH]; [done|]. exact IH. Qed.

Lemma match_decl_at_name kw s name :
  match_decl_at kw s = Some name →
  Py.nonempty name = true ∧ all_chars Py.is_word name = true.
Proof.
  unfold match_decl_at. destruct (Py.startswith kw s); [|done].
  destruct (span_chars Py.is_space _) as [ws rest].
  pose proof (span_chars_spec Py.is_word rest) as (_ & Hword & _).
  destruct (span_chars Py.is_word rest) as [ident after]. simpl in Hword.
  destruct (Py.nonempty ws); [|done]. simpl.
  destruct (Py.nonempty ident) eqn:Hne; [|done]. by intros [= <-].
Qed.

Lemma search_decl_name kw s name :
  search_decl kw s = Some name →
  Py.nonempty name = true ∧ all_chars Py.is_word name = true.
Proof.
  induction s as [|c s IH]; simpl.
  - destruct (match_decl_at kw "") eqn:H; [|done].
    intros [= <-]. by eapply match_decl_at_name.
  - destruct (match_decl_at kw (String c s)) eqn:H; [|done].
    intros [= <-]. by eapply match_decl_at_name.
Qed.

Lemma search_decl_here kw s name :
  match_decl_at kw s = Some name → search_decl kw s = Some name.
Proof. intros H. destruct s; simpl; by rewrite H. Qed.

Section ElementFacts.
Variable cfg : Config.
Variable rt : Runtime.

(** One arm yields nothing, or the one element of its kind. *)
Lemma detect_spec kw with_parameters code doc_id :
  detect cfg rt kw with_parameters code doc_id = []
  ∨ ∃ el,
      detect cfg rt kw with_parameters code doc_id = [el]
      ∧ GraphQLElement.element_type el = kw
      ∧ GraphQLElement.document_id el = doc_id
      ∧ search_decl kw code = Some (GraphQLElement.name el)
      ∧ GraphQLElement.fields el = extract_fields cfg rt code
      ∧ GraphQLElement.parameters el
        = (if with_parameters then extract_parameters rt code else [])
      ∧ GraphQLElement.return_type el = None
      ∧ GraphQLElement.description el = None.
Proof.
  unfold detect. destruct (search_decl kw code) as [name|]; [|by left].
  right. eexists. by repeat split.
Qed.

Lemma detect_sublist kw with_parameters code doc_id :
  GraphQLElement.element_type <$> detect cfg rt kw with_parameters code doc_id
  `sublist_of` [kw].
Proof.
  destruct (detect_spec kw with_parameters code doc_id)
    as [->|(el & -> & <- & _)]; simpl.
  - apply sublist_nil_l.
  - done.
Qed.

End ElementFacts.

(** X4.  A code body yields at most one element of each kind, in the order
    query, mutation, type, interface, so at most four.  Each element belongs
    to the document given, is named by a non-empty run of word characters,
    carries the field list of the whole body, and has parameters only when
    it is a query or a mutation; return type and description are never
    set. *)
Theorem graphql_elements_shape (cfg : Config) (rt : Runtime)
    (code doc_id : string) :
  let elements := extract_graphql_elements cfg rt code doc_id in
  GraphQLElement.element_type <$> elements `sublist_of` element_kinds
  ∧ NoDup (GraphQLElement.element_type <$> elements)
  ∧ (length elements ≤ 4)%nat
  ∧ ∀ el, el ∈ elements →
      GraphQLElement.document_id el = doc_id
      ∧ GraphQLElement.name el ≠ ""
      ∧ all_chars Py.is_word (GraphQLElement.name el) = true
      ∧ search_decl (GraphQLElement.element_type el) code
        = Some (GraphQLElement.name el)
      ∧ GraphQLElement.fields el = extract_fields cfg rt code
      ∧ (GraphQLElement.element_type el = "type"
         ∨ GraphQLElement.element_type el = "interface" →
         GraphQLElement.parameters el = [])
      ∧ GraphQLElement.return_type el = None
      ∧ GraphQLElement.description el = None.
Proof.
  intros elements.
  assert (GraphQLElement.element_type <$> elements `sublist_of` element_kinds)
    as Hsub.
  { unfold elements, extract_graphql_elements. rewrite !fmap_app.
    change element_kinds
      with (["query"] ++ ["mutation"] ++ ["type"] ++ ["interface"]).
    repeat apply sublist_app; apply detect_sublist. }
  split; [done|]. split; [|split].
  - apply (sublist_NoDup _ element_kinds);
      first [exact Hsub | by compute_done].
  - apply sublist_length in Hsub. by rewrite length_fmap in Hsub.
  - intros el. unfold elements, extract_graphql_elements.
    rewrite !elem_of_app.
    intros [H|[H|[H|H]]];
      match type of H with
      | _ ∈ detect _ _ ?kw ?b _ _ =>
          destruct (detect_spec cfg rt kw b code doc_id)
            as [Hd|(el' & Hd & Hk & Hid & Hname & Hf & Hp & Hr & Hdesc)];
            rewrite Hd in H;
            [by apply elem_of_nil in H
            |apply list_elem_of_singleton in H as ->]
      end;
      pose proof (search_decl_name _ _ _ Hname) as [Hne Hw];
      rewrite Hk; repeat split; try done;
      try (by destruct (GraphQLElement.name el'));
      intros [?|?]; discriminate.
Qed.

Lemma is_substring_prefix (a b : string) : is_substring a (a +:+ b).
Proof. by exists "", b. Qed.

Lemma is_substring_cons c (a s : string) :
  is_substring a s → is_substring a (String c s).
Proof. intros (x & y & ->). by exists (String c x), y. Qed.

Lemma alpha_is_word c :
  Py.is_alpha c || Ascii.eqb c "_" = true → Py.is_word c = true.
Proof.
  unfold Py.is_word. intros [->| ->]%orb_prop; [done|].
  by rewrite orb_true_r.
Qed.

Lemma match_field_at_spec prev s ident len :
  match_field_at prev s = Some (ident, len) →
  is_identifier ident = true ∧ ∃ rest, s = ident +:+ rest.
Proof.
  unfold match_field_at. destruct s as [|c s]; [done|].
  destruct (at_word_start prev); [|done]. simpl andb.
  destruct (Py.is_alpha c || Ascii.eqb c "_") eqn:Hc; [|done].
  pose proof (span_chars_spec Py.is_word (String c s)) as (Hs & Hw & _).
  revert Hs Hw. simpl span_chars. rewrite (alpha_is_word _ Hc).
  destruct (span_chars Py.is_word s) as [a rest]. simpl.
  intros Hs Hw.
  destruct (span_chars Py.is_space rest) as [ws rest'].
  destruct rest' as [|d ?]; [done|].
  destruct (is_field_delim d); [|done]. intros [= <- _]. split.
  - simpl. by rewrite Hc, Hw.
  - by exists rest.
Qed.

Lemma findall_fields_spec skip prev s f :
  f ∈ findall_fields skip prev s →
  is_identifier f = true ∧ is_substring f s.
Proof.
  revert skip prev. induction s as [|c s IH]; intros skip prev.
  - by intros ?%elem_of_nil.
  - cbn [findall_fields]. destruct skip as [|k].
    + destruct (match_field_at prev (String c s)) as [[ident len]|] eqn:Hm.
      * intros [->|Hin]%elem_of_cons.
        -- apply match_field_at_spec in Hm as (? & rest & ->).
           split; [done | apply is_substring_prefix].
        -- apply IH in Hin as [? ?]. split; [done|].
           by apply is_substring_cons.
      * intros [? ?]%IH. split; [done | by apply is_substring_cons].
    + intros [? ?]%IH. split; [done | by apply is_substring_cons].
Qed.

Lemma match_param_at_spec s ident len :
  match_param_at s = Some (ident, len) →
  ident ≠ "" ∧ all_chars Py.is_word ident = true
  ∧ ∃ rest, s = "$" +:+ ident +:+ rest.
Proof.
  unfold match_param_at. destruct s as [|c s]; [done|].
  destruct (Ascii.eqb_spec c "$") as [->|Hc].
  2:{ by destruct c as [[] [] [] [] [] [] [] []]. }
  pose proof (span_chars_spec Py.is_word s) as (Hs & Hw & _).
  destruct (span_chars Py.is_word s) as [a rest]. simpl in Hs, Hw.
  destruct (span_chars Py.is_space rest) as [ws rest'].
  destruct rest' as [|d ?]; [done|].
  destruct (Ascii.eqb_spec d ":") as [->|Hd].
  2:{ by destruct d as [[] [] [] [] [] [] [] []]. }
  destruct a as [|x a]; [done|]. simpl. intros [= <- _].
  repeat split; [done | done |]. exists rest. by rewrite Hs.
Qed.

Lemma findall_params_spec skip s p :
  p ∈ findall_params skip s →
  p ≠ "" ∧ all_chars Py.is_word p = true ∧ is_substring ("$" +:+ p) s.
Proof.
  revert skip. induction s as [|c s IH]; intros skip.
  - by intros ?%elem_of_nil.
  - cbn [findall_params]. destruct skip as [|k].
    + destruct (match_param_at (String c s)) as [[ident len]|] eqn:Hm.
      * intros [->|Hin]%elem_of_cons.
        -- apply match_param_at_spec in Hm as (? & ? & rest & ->).
           repeat split; try done.
           exists "", rest. by rewrite append_assoc.
        -- apply IH in Hin as (? & ? & ?). repeat split; try done.
           by apply is_substring_cons.
      * intros (? & ? & ?)%IH. repeat split; try done.
        by apply is_substring_cons.
    + intros (? & ? & ?)%IH. repeat split; try done.
      by apply is_substring_cons.
Qed.

Lemma slice_to_sublist {A} (k : Z) (xs : list A) :
  Py.slice_to k xs `sublist_of` xs.
Proof. unfold Py.slice_to. destruct (0 <=? k); apply sublist_take. Qed.

Lemma set_list_NoDup (order : SetOrder) xs : NoDup (set_list order xs).
Proof. rewrite (set_list_perm order xs). apply NoDup_remove_dups. Qed.

Lemma set_list_elem_of (order : SetOrder) xs x :
  x ∈ set_list order xs ↔ x ∈ xs.
Proof. rewrite (set_list_perm order xs). apply elem_of_remove_dups. Qed.

(** X5.  The field names of a code body are distinct identifiers (a letter
    or underscore, then word characters) that occur in the body, at most
    [MAX_FIELDS_PER_ELEMENT] of them when that is a count; the parameter
    names are distinct, non-empty runs of word characters that occur in the
    body behind a dollar sign. *)
Theorem fields_and_parameters (cfg : Config) (rt : Runtime) (code : string) :
  NoDup (extract_fields cfg rt code)
  ∧ NoDup (extract_parameters rt code)
  ∧ (0 ≤ MAX_FIELDS_PER_ELEMENT cfg →
     Z.of_nat (length (extract_fields cfg rt code)) ≤ MAX_FIELDS_PER_ELEMENT cfg)
  ∧ (∀ f, f ∈ extract_fields cfg rt code →
          is_identifier f = true ∧ is_substring f code)
  ∧ (∀ p, p ∈ extract_parameters rt code →
          p ≠ "" ∧ all_chars Py.is_word p = true
          ∧ is_substring ("$" +:+ p) code).
Proof.
  unfold extract_fields, extract_parameters. repeat split.
  - eapply sublist_NoDup;
      first [apply slice_to_sublist | apply set_list_NoDup].
  - apply set_list_NoDup.
  - intros Hk. rewrite slice_to_nonneg by done.
    match goal with
    | |- context [take ?n ?l] => pose proof (firstn_le_length n l)
    end.
    lia.
  - eapply findall_fields_spec, set_list_elem_of, elem_of_sublist;
      [exact H | apply slice_to_sublist].
  - eapply findall_fields_spec, set_list_elem_of, elem_of_sublist;
      [exact H | apply slice_to_sublist].
  - apply set_list_elem_of, findall_params_spec in H. tauto.
  - apply set_list_elem_of, findall_params_spec in H. tauto.
  - apply set_list_elem_of, findall_params_spec in H. tauto.
Qed.

Lemma word_not_space c : Py.is_word c = true → Py.is_space c = false.
Proof. by destruct c as [[] [] [] [] [] [] [] []]. Qed.

Lemma stops_space_word name rest :
  Py.nonempty name = true → all_chars Py.is_word name = true →
  stops Py.is_space (name +:+ rest) = true.
Proof.
  destruct name as [|c name]; [done|]. simpl.
  intros _ [Hc _]%andb_prop. by rewrite (word_not_space _ Hc).
Qed.

(** X6.  A code body that begins with one of the four keywords, then
    whitespace, then a name (a run of word characters that ends there) yields
    the element of that kind with that name. *)
Theorem leading_declaration_detected (cfg : Config) (rt : Runtime)
    (kw ws name rest doc_id : string) :
  kw ∈ element_kinds →
  Py.nonempty ws = true → all_chars Py.is_space ws = true →
  Py.nonempty name = true → all_chars Py.is_word name = true →
  stops Py.is_word rest = true →
  ∃ el,
    el ∈ extract_graphql_elements cfg rt (kw +:+ ws +:+ name +:+ rest) doc_id
    ∧ GraphQLElement.element_type el = kw
    ∧ GraphQLElement.name el = name.
Proof.
  intros Hkw Hws1 Hws2 Hn1 Hn2 Hrest.
  assert (search_decl kw (kw +:+ ws +:+ name +:+ rest) = Some name) as Hs.
  { apply search_decl_here. unfold match_decl_at.
    rewrite startswith_app, drop_chars_app.
    rewrite (span_chars_app Py.is_space ws (name +:+ rest))
      by (done || by apply stops_space_word).
    rewrite (span_chars_app Py.is_word name rest) by done.
    by rewrite Hws1, Hn1. }
  unfold extract_graphql_elements, detect, element_kinds in *.
  rewrite !elem_of_cons, elem_of_nil in Hkw.
  destruct Hkw as [->|[->|[->|[->|[]]]]]; rewrite Hs;
    eexists;
    (split;
     [rewrite !elem_of_app, !list_elem_of_singleton; eauto 6
     |split; reflexivity]).
Qed.

Lemma leading_declaration_detected_witness :
  ∃ el,
    el ∈ extract_graphql_elements default_config sample_runtime
           ("mutation" +:+ " " +:+ "createFoo" +:+ "(input: $in) { id }") "doc"
    ∧ GraphQLElement.element_type el = "mutation"
    ∧ GraphQLElement.name el = "createFoo".
Proof.
  apply (leading_declaration_detected default_config sample_runtime
           "mutation" " " "createFoo" "(input: $in) { id }" "doc");
    try reflexivity.
  unfold element_kinds. rewrite !elem_of_cons. auto.
Defined.

(** X7.  The content type follows the category first: it is "schema" exactly
    for the category "schema" and "tutorial" exactly for "tutorials"; under
    "develop" and "usage" it is "guide" whatever the path; "reference" is
    given exactly when the category is none of these four and the path
    contains "reference" in any letter case; everything else is "guide". *)
Theorem content_type_by_category (category rel_path : string) :
  let content_type := determine_content_type category rel_path in
  (content_type = "schema" ↔ category = "schema")
  ∧ (content_type = "tutorial" ↔ category = "tutorials")
  ∧ (category = "develop" ∨ category = "usage" → content_type = "guide")
  ∧ (content_type = "reference" ↔
       category ≠ "schema" ∧ category ≠ "tutorials"
       ∧ category ≠ "develop" ∧ category ≠ "usage"
       ∧ Py.contains "reference" (Py.lower rel_path) = true)
  ∧ (content_type = "guide" ↔
       category = "develop" ∨ category = "usage"
       ∨ (category ≠ "schema" ∧ category ≠ "tutorials"
          ∧ Py.contains "reference" (Py.lower rel_path) = false)).
Proof.
  unfold determine_content_type.
  repeat case_decide; subst;
    try destruct (Py.contains "reference" (Py.lower rel_path));
    repeat split; try done; try tauto;
    try (intros [?|?]; congruence);
    try (intros [?|[?|(? & ? & ?)]]; (congruence || tauto));
    try (intros (_ & _ & _ & _ & ?); congruence).
Qed.

(** * Further properties of document parsing *)

Lemma is_substring_empty s : is_substring "" s.
Proof. by exists "", s. Qed.

Lemma join_contains sep (x : string) (xs : list string) :
  x ∈ xs → is_substring x (Py.join sep xs).
Proof.
  induction xs as [|y ys IH]; [by intros ?%elem_of_nil|].
  unfold Py.join in *. intros [->|Hin]%elem_of_cons.
  - destruct ys as [|z zs]; simpl.
    + exists "", "". by rewrite append_empty_r.
    + apply is_substring_prefix.
  - destruct ys as [|z zs]; [by apply elem_of_nil in Hin|].
    destruct (IH Hin) as (a & b & Heq).
    exists (y +:+ sep +:+ a), b.
    change (String.concat sep (y :: z :: zs))
      with (y +:+ sep +:+ String.concat sep (z :: zs)).
    by rewrite Heq, !append_assoc.
Qed.

Lemma strings_of_elem_of parts ss s :
  strings_of parts = Ok ss → YStr s ∈ parts → s ∈ ss.
Proof.
  revert ss. induction parts as [|v parts IH]; intros ss; simpl.
  - by intros _ ?%elem_of_nil.
  - destruct v as [|t| |]; try done.
    destruct (strings_of parts) as [ss'|]; [|done].
    intros [= <-] [[= ->]|Hin]%elem_of_cons; apply elem_of_cons; auto.
Qed.

Lemma strings_of_fmap parts ss : strings_of parts = Ok ss → parts = YStr <$> ss.
Proof.
  revert ss. induction parts as [|v parts IH]; intros ss; simpl.
  - by intros [= <-].
  - destruct v as [|t| |]; try done.
    destruct (strings_of parts) as [ss'|]; [|done].
    intros [= <-]. by rewrite (IH ss').
Qed.

(** A string that is among the parts occurs in the joined text. *)
Lemma join_truthy_contains parts text s :
  join_truthy parts = Ok text → YStr s ∈ parts → is_substring s text.
Proof.
  unfold join_truthy.
  destruct (strings_of (List.filter truthy parts)) as [ss|] eqn:Hss; [|done].
  intros [= <-] Hin. destruct s as [|c s]; [apply is_substring_empty|].
  apply join_contains. eapply strings_of_elem_of; [exact Hss|].
  apply list_elem_of_In, filter_In. split; [by apply list_elem_of_In|done].
Qed.

(** X8.  The searchable text of a parsed document contains its description,
    each of its keywords, each of its headers, and the cleaned body. *)
Theorem searchable_text_contains_metadata (rt : Runtime) (f : SourceFile)
    (doc : Document.t) :
  parse_file rt f = Ok doc →
  (∀ d, Document.description doc = Some d →
        is_substring d (Document.searchable_text doc))
  ∧ (∀ k, k ∈ Document.keywords doc →
          is_substring k (Document.searchable_text doc))
  ∧ (∀ h, h ∈ Document.headers doc →
          is_substring h (Document.searchable_text doc))
  ∧ is_substring (clean_content (Document.content_md doc))
      (Document.searchable_text doc).
Proof.
  unfold parse_file. destruct (sf_post f) as [post|]; [|discriminate].
  destruct (extract_category_from_path (sf_parts f)) as [category subcategory].
  intros (text & Htext & H)%bind_Ok.
  apply bind_Ok in H as (title & _ & H).
  apply bind_Ok in H as (description & Hdesc & H).
  apply bind_Ok in H as (keywords & Hkw & [= <-]). simpl.
  revert Htext Hdesc Hkw.
  generalize (match metadata post !! "title" with
              | Some v => v
              | None =>
                  match extract_first_header (content post) with
                  | Some h =>
                      if Py.nonempty h then YStr h
                      else YStr (rel_path_of (sf_parts f))
                  | None => YStr (rel_path_of (sf_parts f))
                  end
              end) as ytitle.
  generalize (default YNull (metadata post !! "description")) as ydesc.
  generalize (match metadata post !! "keywords" with
              | Some (YStr s) => YList [YStr s]
              | Some v => v
              | None => YList []
              end) as ykw.
  intros ykw ydesc ytitle Htext Hdesc Hkw.
  unfold build_searchable_text in Htext.
  destruct ykw as [| |l|]; try discriminate.
  unfold as_str_list in Hkw.
  destruct (strings_of l) as [ks|] eqn:Hl; [|discriminate].
  injection Hkw as <-. apply strings_of_fmap in Hl as ->.
  assert (∃ parts,
            join_truthy parts = Ok text
            ∧ (truthy ydesc = true → ydesc ∈ parts)
            ∧ (∀ k, k ∈ ks → YStr k ∈ parts)
            ∧ (∀ h, h ∈ extract_headers (content post) → YStr h ∈ parts)
            ∧ YStr (clean_content (content post)) ∈ parts)
    as (parts & Hjoin & Hd & Hk & Hh & Hc).
  { destruct (truthy (YList (YStr <$> ks))) eqn:Hks;
      destruct (truthy ydesc); simpl in Htext;
      (eexists; split; [exact Htext|]);
      repeat split; try done;
      try (intros _); try (intros x Hx);
      repeat (rewrite elem_of_app || rewrite elem_of_cons
              || rewrite list_elem_of_fmap);
      try (destruct ks; [by apply elem_of_nil in Hx | discriminate Hks]);
      eauto 10. }
  repeat split.
  - intros d ->. destruct ydesc as [|s| |]; try discriminate.
    injection Hdesc as ->. destruct d as [|c d]; [apply is_substring_empty|].
    eapply join_truthy_contains; [exact Hjoin | by apply Hd].
  - intros k Hin. eapply join_truthy_contains; [exact Hjoin | by apply Hk].
  - intros h Hin. eapply join_truthy_contains; [exact Hjoin | by apply Hh].
  - eapply join_truthy_contains; [exact Hjoin | exact Hc].
Qed.

Lemma searchable_text_contains_metadata_witness :
  ∃ doc,
    parse_file sample_runtime
      (sample_page ["schema"; "cart"; "queries"; "cart.md"]
         ["cart"; "checkout"]) = Ok doc
    ∧ (∀ d, Document.description doc = Some d →
            is_substring d (Document.searchable_text doc))
    ∧ (∀ k, k ∈ Document.keywords doc →
            is_substring k (Document.searchable_text doc))
    ∧ (∀ h, h ∈ Document.headers doc →
            is_substring h (Document.searchable_text doc))
    ∧ is_substring (clean_content (Document.content_md doc))
        (Document.searchable_text doc).
Proof.
  eexists. split; [vm_compute; reflexivity|].
  apply (searchable_text_contains_metadata sample_runtime
           (sample_page ["schema"; "cart"; "queries"; "cart.md"]
              ["cart"; "checkout"])).
  vm_compute. reflexivity.
Defined.

Lemma blocks_document_id markdown doc_id block :
  block ∈ extract_code_blocks markdown doc_id →
  CodeBlock.document_id block = doc_id.
Proof. by intros (j & line & _ & _ & _ & ->)%blocks_loop_spec. Qed.

Lemma elements_document_id cfg rt code doc_id el :
  el ∈ extract_graphql_elements cfg rt code doc_id →
  GraphQLElement.document_id el = doc_id.
Proof.
  unfold extract_graphql_elements. rewrite !elem_of_app.
  intros [H|[H|[H|H]]];
    match type of H with
    | _ ∈ detect _ _ ?kw ?b _ _ =>
        destruct (detect_spec cfg rt kw b code doc_id)
          as [Hd|(el' & Hd & _ & Hid & _)];
          rewrite Hd in H;
          [by apply elem_of_nil in H
          |by apply list_elem_of_singleton in H as ->]
    end.
Qed.

Lemma elem_of_filter_bool {A} (f : A → bool) (l : list A) x :
  x ∈ List.filter f l ↔ x ∈ l ∧ f x = true.
Proof. rewrite !list_elem_of_In. apply filter_In. Qed.

Lemma elem_of_concat {A} (ls : list (list A)) x :
  x ∈ List.concat ls ↔ ∃ l, l ∈ ls ∧ x ∈ l.
Proof.
  rewrite list_elem_of_In, in_concat. split.
  - intros (l & ? & ?). exists l. by rewrite !list_elem_of_In.
  - intros (l & ? & ?). exists l. by rewrite <- !list_elem_of_In.
Qed.

Section ParseAllFacts.
Variable cfg : Config.
Variable rt : Runtime.

Lemma parse_files_spec fs :
  let out := parse_files cfg rt fs in
  (length out.1.1 ≤ length fs)%nat
  ∧ (∀ d, d ∈ out.1.1 ↔ ∃ f, f ∈ fs ∧ parse_file rt f = Ok d)
  ∧ (∀ b, b ∈ out.1.2 ↔
       ∃ d, d ∈ out.1.1
            ∧ b ∈ extract_code_blocks (Document.content_md d) (Document.id d))
  ∧ (∀ e, e ∈ out.2 ↔
       ∃ d b, d ∈ out.1.1
              ∧ b ∈ extract_code_blocks (Document.content_md d) (Document.id d)
              ∧ CodeBlock.language b = "graphql"
              ∧ e ∈ extract_graphql_elements cfg rt (CodeBlock.code b)
                      (Document.id d)).
Proof.
  induction fs as [|f fs (IH1 & IH2 & IH3 & IH4)]; cbn [parse_files].
  - cbn. split; [done|]. split; [|split].
    + intros d. split; [by intros ?%elem_of_nil|].
      by intros (? & ?%elem_of_nil & _).
    + intros b. split; [by intros ?%elem_of_nil|].
      by intros (? & ?%elem_of_nil & _).
    + intros e. split; [by intros ?%elem_of_nil|].
      by intros (? & ? & ?%elem_of_nil & _).
  - destruct (parse_files cfg rt fs) as [[docs blocks] els]. cbn in *.
    destruct (parse_file rt f) as [doc|err] eqn:Hf; cbn.
    + split; [lia|]. split; [|split].
      * intros d. rewrite elem_of_cons, IH2. split.
        -- intros [->|(f' & ? & ?)].
           ++ exists f. split; [apply elem_of_cons; by left | done].
           ++ exists f'. split; [apply elem_of_cons; by right | done].
        -- intros (f' & [->|?]%elem_of_cons & Hd).
           ++ left. congruence.
           ++ right. by exists f'.
      * intros b. rewrite elem_of_app, IH3. split.
        -- intros [?|(d & ? & ?)].
           ++ exists doc. split; [apply elem_of_cons; by left | done].
           ++ exists d. split; [apply elem_of_cons; by right | done].
        -- intros (d & [->|?]%elem_of_cons & ?); [by left|].
           right. by exists d.
      * intros e. rewrite elem_of_app, IH4, elem_of_concat. split.
        -- intros [(l & (b & -> & [Hb Hlang]%elem_of_filter_bool)%list_elem_of_fmap & He)
                  |(d & b & ? & ?)].
           ++ exists doc, b. apply String.eqb_eq in Hlang.
              split; [apply elem_of_cons; by left | done].
           ++ exists d, b. split; [apply elem_of_cons; by right | done].
        -- intros (d & b & [->|?]%elem_of_cons & Hb & Hlang & He).
           ++ left. eexists. split; [|exact He].
              apply list_elem_of_fmap. exists b. split; [done|].
              apply elem_of_filter_bool. split; [done|].
              by apply String.eqb_eq.
           ++ right. by exists d, b.
    + split; [lia|]. split; [|done].
      intros d. rewrite IH2. split.
      * intros (f' & ? & ?). exists f'.
        split; [apply elem_of_cons; by right | done].
      * intros (f' & [->|?]%elem_of_cons & Hd); [congruence|].
        by exists f'.
Qed.

End ParseAllFacts.

(** X9.  A parser pass keeps the three collections consistent.  The
    documents are exactly the [.md] files that parse, so there are no more of
    them than [.md] files; a file that fails to parse leaves nothing behind.
    Every code block is a block of one of those documents and carries its
    key; every schema element comes from a block tagged "graphql" of one of
    those documents and carries its key. *)
Theorem parse_all_consistent (cfg : Config) (rt : Runtime)
    (files : list SourceFile) :
  let out := parse_all cfg rt files in
  (length out.1.1 ≤ length (walk_directory files))%nat
  ∧ (∀ d, d ∈ out.1.1 ↔
       ∃ f, f ∈ files ∧ is_md f = true ∧ parse_file rt f = Ok d)
  ∧ (∀ b, b ∈ out.1.2 →
       ∃ d, d ∈ out.1.1
            ∧ CodeBlock.document_id b = Document.id d
            ∧ b ∈ extract_code_blocks (Document.content_md d) (Document.id d))
  ∧ (∀ e, e ∈ out.2 →
       ∃ d b, d ∈ out.1.1 ∧ b ∈ out.1.2
              ∧ CodeBlock.language b = "graphql"
              ∧ CodeBlock.document_id b = Document.id d
              ∧ GraphQLElement.document_id e = Document.id d
              ∧ e ∈ extract_graphql_elements cfg rt (CodeBlock.code b)
                      (Document.id d)).
Proof.
  intros out. unfold out, parse_all.
  destruct (parse_files_spec cfg rt (walk_directory files))
    as (H1 & H2 & H3 & H4).
  split; [exact H1|]. split; [|split].
  - intros d. rewrite H2. unfold walk_directory.
    split; intros (f & Hf & ?); exists f.
    + apply elem_of_filter_bool in Hf. tauto.
    + split; [apply elem_of_filter_bool|]; tauto.
  - intros b (d & ? & Hb)%H3. exists d.
    split; [done|]. split; [by eapply blocks_document_id | done].
  - intros e (d & b & ? & Hb & ? & He)%H4. exists d, b.
    split; [done|]. split; [apply H3; by exists d|].
    split; [done|]. split; [by eapply blocks_document_id|].
    split; [by eapply elements_document_id | done].
Qed.

(** * Further properties of the ingestion coordinator *)

Section IngestMore.
Variable cfg : Config.
Variable rt : Runtime.
Variable faults : Faults.

Lemma attempt_Ok s st r st' :
  attempt faults s st = (r, st') → st' = st ∧ (r = Ok tt ∨ ∃ e, r = Raise e).
Proof.
  unfold attempt, raise, ret. destruct (faults s); intros [= <- <-]; eauto.
Qed.

Lemma create_step_Ok {A} s (tbl : Store → option A) (set : Store → Store) st st' :
  bindM get_store (λ db,
    when (is_none (tbl db)) (attempt faults s ;;; modify set)) st
  = (Ok tt, st') →
  st' = if is_none (tbl st) then set st else st.
Proof.
  change (bindM get_store ?k st) with (k st st). cbv beta.
  destruct (is_none (tbl st)); simpl; [|by intros [= <-]].
  intros ([] & s1 & [-> _]%attempt_Ok & [= <-])%bindM_Ok. done.
Qed.

Lemma enable_step_Ok s (flag : Store → bool) (set : Store → Store) st st' :
  bindM get_store (λ db,
    when (negb (flag db)) (attempt faults s ;;; modify set)) st
  = (Ok tt, st') →
  st' = if flag st then st else set st.
Proof.
  change (bindM get_store ?k st) with (k st st). cbv beta.
  destruct (flag st); simpl; [by intros [= <-]|].
  intros ([] & s1 & [-> _]%attempt_Ok & [= <-])%bindM_Ok. done.
Qed.

Lemma create_tables_Ok st st' :
  create_tables faults st = (Ok tt, st') → st' = with_schema st.
Proof.
  unfold create_tables.
  intros ([] & s1 & ->%create_step_Ok & H)%bindM_Ok.
  apply bindM_Ok in H as ([] & s2 & ->%create_step_Ok & H).
  apply bindM_Ok in H as ([] & s3 & ->%create_step_Ok & H).
  apply bindM_Ok in H as ([] & s4 & ->%create_step_Ok & H).
  apply bindM_Ok in H as ([] & s5 & ->%enable_step_Ok & H).
  apply enable_step_Ok in H as ->.
  destruct st as [m d c g fd fg].
  by destruct m, d, c, g, fd, fg.
Qed.

Lemma delete_where_Ok {A} s (tbl : Store → option (list A)) set st st' :
  delete_where faults s tbl set st = (Ok tt, st') →
  is_Some (tbl st) ∧ st' = set (Some []) st.
Proof.
  unfold delete_where.
  intros ([] & s1 & [-> _]%attempt_Ok & H)%bindM_Ok.
  change (bindM get_store ?k st) with (k st st) in H. cbv beta in H.
  destruct (tbl st); [|done]. injection H as <-. eauto.
Qed.

Lemma insert_all_Ok {A} s (tbl : Store → option (list A)) set records st st' :
  insert_all faults s tbl set records st = (Ok tt, st') →
  st' = set (Some (default [] (tbl st) ++ records)) st.
Proof.
  unfold insert_all.
  intros ([] & s1 & [-> _]%attempt_Ok & H)%bindM_Ok.
  by injection H as <-.
Qed.

Lemma insert_documents_Ok records st st' :
  insert_documents faults records st = (Ok tt, st') →
  NoDup (DocRow.id <$> (default [] (t_documents st) ++ records))
  ∧ st' = with_documents (Some (default [] (t_documents st) ++ records)) st.
Proof.
  unfold insert_documents.
  change (bindM get_store ?k st) with (k st st). cbv beta.
  case_decide as Hnd.
  - intros ->%insert_all_Ok. done.
  - intros ([] & s1 & _ & [=])%bindM_Ok.
Qed.

Lemma when_nonempty_Ok {A} (records : list A) (m : M unit) (f : Store → Store)
    st st' :
  (m st = (Ok tt, st') → st' = f st) →
  (records = [] → f st = st) →
  when (nonempty_list records) m st = (Ok tt, st') → st' = f st.
Proof.
  intros Hm Hnil. destruct records; simpl.
  - intros [= <-]. by rewrite Hnil.
  - exact Hm.
Qed.

(** What [ingest_data] leaves when it returns: the three tables hold the
    parser's output and nothing else. *)
Lemma ingest_data_Ok files st st' :
  ingest_data cfg rt faults files st = (Ok tt, st') →
  let out := parse_all cfg rt files in
  NoDup (Document.id <$> out.1.1)
  ∧ st' = with_graphql_elements (Some out.2)
            (with_code_blocks (Some out.1.2)
               (with_documents (Some (doc_record rt <$> out.1.1)) st)).
Proof.
  unfold ingest_data.
  intros ([] & s0 & [-> _]%attempt_Ok & H)%bindM_Ok.
  destruct (parse_all cfg rt files) as [[documents code_blocks] elements].
  apply bindM_Ok in H as ([] & s1 & [_ ->]%delete_where_Ok & H).
  apply bindM_Ok in H as ([] & s2 & [_ ->]%delete_where_Ok & H).
  apply bindM_Ok in H as ([] & s3 & [_ ->]%delete_where_Ok & H).
  apply bindM_Ok in H as ([] & s4 & Hdocs & H).
  apply bindM_Ok in H as ([] & s5 & Hblocks & Hels).
  cbn [fst snd].
  assert (NoDup (Document.id <$> documents)
          ∧ s4 = with_documents (Some (doc_record rt <$> documents))
                   (with_documents (Some [])
                      (with_graphql_elements (Some [])
                         (with_code_blocks (Some []) st)))) as [Hnd ->].
  { destruct documents as [|d documents]; simpl in Hdocs.
    - injection Hdocs as <-. split; [constructor | done].
    - apply insert_documents_Ok in Hdocs as [Hnd ->]. simpl in Hnd.
      split; [|done].
      rewrite <- list_fmap_compose in Hnd.
      change (DocRow.id (doc_record rt d)) with (Document.id d) in Hnd.
      exact Hnd. }
  split; [done|].
  apply (when_nonempty_Ok code_blocks _
           (with_code_blocks (Some code_blocks))) in Hblocks.
  2:{ intros ->%insert_all_Ok. done. }
  2:{ intros ->. done. }
  apply (when_nonempty_Ok elements _
           (with_graphql_elements (Some elements))) in Hels.
  2:{ intros ->%insert_all_Ok. subst s5. done. }
  2:{ intros ->. subst s5. done. }
  subst s5. rewrite Hels. done.
Qed.

Lemma update_metadata_Ok files total_files now st st' :
  update_metadata rt faults files total_files now st = (Ok tt, st') →
  st' = with_metadata
          (Some (<["last_ingestion" :=
                     MetaRow.mk (isoformat rt (latest_mtime (walk_directory files)))
                       total_files now]> (default ∅ (t_metadata st)))) st.
Proof.
  unfold update_metadata.
  intros ([] & s1 & [-> _]%attempt_Ok & H)%bindM_Ok.
  apply bindM_Ok in H as ([] & s2 & [-> _]%attempt_Ok & H).
  by injection H as <-.
Qed.

(** A run that does re-ingest and in which nothing is raised. *)
Lemma ingest_run_Ok files now st st1 :
  (∀ s, faults s ≠ Some FileNotFoundError) →
  should_reingest rt st (Some files) = true →
  ingest_graphql_docs cfg rt faults (Some files) now st = (Ok tt, st1) →
  let out := parse_all cfg rt files in
  NoDup (Document.id <$> out.1.1)
  ∧ st1 = with_metadata
            (Some (<["last_ingestion" :=
                       MetaRow.mk
                         (isoformat rt (latest_mtime (walk_directory files)))
                         (length (walk_directory files)) now]>
                     (default ∅ (t_metadata st))))
            (with_graphql_elements (Some out.2)
               (with_code_blocks (Some out.1.2)
                  (with_documents (Some (doc_record rt <$> out.1.1))
                     (with_schema st)))).
Proof.
  intros Hf Hgo. unfold ingest_graphql_docs.
  change (bindM get_store ?k st) with (k st st). cbv beta.
  rewrite Hgo. change (negb true) with false. cbv iota.
  intros ([] & sa & ->%create_tables_Ok & Htry)%bindM_Ok.
  unfold try_except_file_not_found in Htry.
  match type of Htry with
  | context [match ?body (with_schema st) with _ => _ end] =>
      destruct (body (with_schema st)) as [[[]|e] sb] eqn:Hbody
  end.
  - injection Htry as ->.
    apply bindM_Ok in Hbody as ([] & s1 & [-> _]%attempt_Ok & Hbody).
    cbv zeta in Hbody.
    apply bindM_Ok in Hbody as ([] & s2 & [Hnd ->]%ingest_data_Ok & Hbody).
    apply update_metadata_Ok in Hbody as ->. done.
  - destruct e; try discriminate. exfalso. revert Hbody.
    apply never_fnf_bindM; [by apply never_fnf_attempt|intros _].
    cbv zeta.
    apply never_fnf_bindM; [by apply never_fnf_ingest_data|intros _].
    by apply never_fnf_update_metadata.
Qed.

End IngestMore.

(** X10.  A re-ingest in which nothing is raised replaces the index: whatever
    the tables held before, afterwards they hold exactly the documents, code
    blocks and elements of the parser pass over the current files, both
    full-text indexes exist, and the metadata record holds the ISO text of
    the newest [.md] modification time, the number of [.md] files and the
    time of the run.  Files that fail to parse count as files but leave no
    document, so the document count never exceeds the recorded file count. *)
Theorem reingest_replaces_index (cfg : Config) (rt : Runtime)
    (faults : Faults) (files : list SourceFile) (now : string)
    (st st1 : Store) :
  (∀ s, faults s ≠ Some FileNotFoundError) →
  should_reingest rt st (Some files) = true →
  ingest_graphql_docs cfg rt faults (Some files) now st = (Ok tt, st1) →
  let out := parse_all cfg rt files in
  t_documents st1 = Some (doc_record rt <$> out.1.1)
  ∧ t_code_blocks st1 = Some out.1.2
  ∧ t_graphql_elements st1 = Some out.2
  ∧ t_documents_fts st1 = true
  ∧ t_graphql_elements_fts st1 = true
  ∧ last_ingestion st1
    = Some (MetaRow.mk (isoformat rt (latest_mtime (walk_directory files)))
              (length (walk_directory files)) now)
  ∧ (row_count (t_documents st1) ≤ length (walk_directory files))%nat.
Proof.
  intros Hf Hgo Hrun out.
  destruct (ingest_run_Ok cfg rt faults files now st st1 Hf Hgo Hrun)
    as [_ ->].
  fold out. repeat split.
  - unfold last_ingestion. simpl. apply lookup_insert_eq.
  - simpl. rewrite length_fmap.
    apply (parse_files_spec cfg rt (walk_directory files)).
Qed.

Lemma reingest_replaces_index_witness :
  let st1 :=
    (ingest_graphql_docs default_config sample_runtime no_faults
       (Some [products_file_newer]) "second" sample_db).2 in
  let out := parse_all default_config sample_runtime [products_file_newer] in
  t_documents st1 = Some (doc_record sample_runtime <$> out.1.1)
  ∧ t_code_blocks st1 = Some out.1.2
  ∧ t_graphql_elements st1 = Some out.2
  ∧ t_documents_fts st1 = true
  ∧ t_graphql_elements_fts st1 = true
  ∧ last_ingestion st1
    = Some (MetaRow.mk
              (isoformat sample_runtime
                 (latest_mtime (walk_directory [products_file_newer])))
              (length (walk_directory [products_file_newer])) "second")
  ∧ (row_count (t_documents st1)
     ≤ length (walk_directory [products_file_newer]))%nat.
Proof.
  apply (reingest_replaces_index default_config sample_runtime no_faults
           [products_file_newer] "second" sample_db).
  - intros s. discriminate.
  - vm_compute. reflexivity.
  - vm_compute. reflexivity.
Defined.

(** X11.  Schema creation is idempotent and never loses rows: when it
    returns, each table that existed holds the rows it held, each table that
    was missing exists and is empty, the metadata record is untouched, and a
    second schema creation finds nothing to do, so it returns the same store
    however the database behaves. *)
Theorem create_tables_idempotent (faults faults' : Faults) (st st' : Store) :
  create_tables faults st = (Ok tt, st') →
  t_documents st' = Some (default [] (t_documents st))
  ∧ t_code_blocks st' = Some (default [] (t_code_blocks st))
  ∧ t_graphql_elements st' = Some (default [] (t_graphql_elements st))
  ∧ t_metadata st' = Some (default ∅ (t_metadata st))
  ∧ last_ingestion st' = last_ingestion st
  ∧ t_documents_fts st' = true
  ∧ t_graphql_elements_fts st' = true
  ∧ create_tables faults' st' = (Ok tt, st').
Proof.
  intros ->%create_tables_Ok. repeat split.
  unfold last_ingestion. simpl. by destruct (t_metadata st).
Qed.

Lemma create_tables_idempotent_witness :
  let st' := (create_tables no_faults sample_db).2 in
  t_documents st' = Some (default [] (t_documents sample_db))
  ∧ t_code_blocks st' = Some (default [] (t_code_blocks sample_db))
  ∧ t_graphql_elements st' = Some (default [] (t_graphql_elements sample_db))
  ∧ t_metadata st' = Some (default ∅ (t_metadata sample_db))
  ∧ last_ingestion st' = last_ingestion sample_db
  ∧ t_documents_fts st' = true
  ∧ t_graphql_elements_fts st' = true
  ∧ create_tables insert_fails st' = (Ok tt, st').
Proof.
  apply (create_tables_idempotent no_faults insert_fails sample_db).
  vm_compute. reflexivity.
Defined.

Lemma foldr_max_bound (m : Z) (l : list Z) x :
  x ∈ m :: l → x ≤ foldr Z.max m l.
Proof.
  induction l as [|y l IH]; simpl.
  - intros ->%list_elem_of_singleton. lia.
  - rewrite elem_of_cons, (elem_of_cons l). intros [->|[->|?]].
    + specialize (IH ltac:(apply elem_of_cons; by left)). lia.
    + lia.
    + specialize (IH ltac:(apply elem_of_cons; by right)). lia.
Qed.

Lemma foldr_max_attained (m : Z) (l : list Z) : foldr Z.max m l ∈ m :: l.
Proof.
  induction l as [|y l IH]; simpl.
  - apply elem_of_cons. by left.
  - destruct (Z.max_spec y (foldr Z.max m l)) as [[_ ->]|[_ ->]].
    + apply elem_of_cons in IH as [->|?].
      * apply elem_of_cons. by left.
      * do 2 (apply elem_of_cons; right). done.
    + apply elem_of_cons. right. apply elem_of_cons. by left.
Qed.

(** The newest modification time: an upper bound that is attained, and zero
    for no files. *)
Lemma latest_mtime_spec (md_files : list SourceFile) :
  (md_files = [] → latest_mtime md_files = 0)
  ∧ (∀ f, f ∈ md_files → sf_mtime f ≤ latest_mtime md_files)
  ∧ (md_files ≠ [] → ∃ f, f ∈ md_files ∧ sf_mtime f = latest_mtime md_files).
Proof.
  destruct md_files as [|f rest]; simpl.
  - repeat split; [by intros ? ?%elem_of_nil | done].
  - repeat split; [done| |].
    + intros g Hg. apply foldr_max_bound.
      rewrite <- fmap_cons. by apply list_elem_of_fmap_2.
    + intros _. pose proof (foldr_max_attained (sf_mtime f) (sf_mtime <$> rest)) as H.
      rewrite <- fmap_cons in H.
      apply list_elem_of_fmap in H as (g & Hg & ?). by exists g.
Qed.

Lemma latest_mtime_unique md_files m :
  (∀ f, f ∈ md_files → sf_mtime f ≤ m) →
  (∃ f, f ∈ md_files ∧ sf_mtime f = m) →
  latest_mtime md_files = m.
Proof.
  intros Hle (f & Hf & Hm).
  destruct (latest_mtime_spec md_files) as (_ & Hbound & Hatt).
  destruct Hatt as (g & Hg & Heq); [by intros ->; apply elem_of_nil in Hf|].
  specialize (Hbound f Hf). specialize (Hle g Hg). lia.
Qed.

(** X12.  Change detection looks at the newest modification time only.  After
    a re-ingest in which nothing was raised, any later state of the corpus in
    which no [.md] file is newer than the newest one was, and some file has
    that time, is taken for unchanged: files removed, added or edited with
    older times go unnoticed, the run returns at the skip test, and the
    documents table still holds the rows of the earlier corpus. *)
Theorem older_changes_go_unnoticed (cfg : Config) (rt : Runtime)
    (faults faults' : Faults) (files files' : list SourceFile)
    (now now' : string) (st st1 : Store) :
  (∀ s, faults s ≠ Some FileNotFoundError) →
  should_reingest rt st (Some files) = true →
  ingest_graphql_docs cfg rt faults (Some files) now st = (Ok tt, st1) →
  (∀ f, f ∈ walk_directory files' →
        sf_mtime f ≤ latest_mtime (walk_directory files)) →
  (∃ f, f ∈ walk_directory files'
        ∧ sf_mtime f = latest_mtime (walk_directory files)) →
  ingest_graphql_docs cfg rt faults' (Some files') now' st1 = (Ok tt, st1)
  ∧ t_documents st1 = Some (doc_record rt <$> (parse_all cfg rt files).1.1).
Proof.
  intros Hf Hgo Hrun Hle Hatt. split.
  - apply ingest_skips, should_reingest_false.
    rewrite (latest_mtime_unique _ _ Hle Hatt).
    apply should_reingest_false. by eapply ingested_is_up_to_date.
  - by destruct (ingest_run_Ok cfg rt faults files now st st1 Hf Hgo Hrun)
      as [_ ->].
Qed.

(** X12 at work: of the sample corpus only the caching page is left, with
    its old modification time. *)
Lemma older_changes_go_unnoticed_witness :
  ingest_graphql_docs default_config sample_runtime insert_fails
    (Some [sample_page ["usage"; "caching.md"] ["cart"]]) "later" sample_db
  = (Ok tt, sample_db)
  ∧ t_documents sample_db
    = Some (doc_record sample_runtime
              <$> (parse_all default_config sample_runtime sample_corpus).1.1).
Proof.
  apply (older_changes_go_unnoticed default_config sample_runtime no_faults
           insert_fails sample_corpus
           [sample_page ["usage"; "caching.md"] ["cart"]]
           "now" "later" empty_store).
  - intros s. discriminate.
  - reflexivity.
  - vm_compute. reflexivity.
  - intros f Hf. vm_compute in Hf.
    apply list_elem_of_singleton in Hf as ->. vm_compute. discriminate.
  - eexists. split; [vm_compute; apply elem_of_cons; by left|].
    vm_compute. reflexivity.
Defined.

(** * Further properties of the query layer *)

Lemma filter_singleton {A} (p : A → bool) (l : list A) x :
  NoDup l → x ∈ l → p x = true →
  (∀ y, y ∈ l → p y = true → y = x) →
  List.filter p l = [x].
Proof.
  induction l as [|z l IH]; [by intros _ ?%elem_of_nil|].
  intros [Hz Hnd]%NoDup_cons [<-|Hin]%elem_of_cons Hx Huniq; simpl.
  - rewrite Hx. f_equal. apply filter_none. intros y Hy.
    destruct (p y) eqn:Hpy; [|done].
    assert (y = x) as -> by (apply Huniq; [apply elem_of_cons; by right|done]).
    done.
  - destruct (p z) eqn:Hpz.
    + assert (z = x) as -> by (apply Huniq; [apply elem_of_cons; by left|done]).
      done.
    + apply IH; try done.
      intros y Hy. apply Huniq. apply elem_of_cons. by right.
Qed.

(** What [get_document] returns when the query has a first row. *)
Lemma get_document_found db rows r others file_path :
  t_documents db = Some rows →
  List.filter (by_file_path file_path) rows = r :: others →
  get_document db file_path = Ok (format_document r).
Proof.
  intros Hrows Hfound. unfold get_document, select_documents.
  rewrite Hrows. simpl. rewrite Hfound. simpl.
  unfold format_document. by destruct (truthy_opt (DocRow.description r)).
Qed.

Lemma parse_file_key rt f d :
  parse_file rt f = Ok d →
  Document.id d = sha256_hex rt (Document.file_path d).
Proof.
  unfold parse_file. destruct (sf_post f) as [post|]; [|discriminate].
  destruct (extract_category_from_path (sf_parts f)) as [category subcategory].
  intros (text & _ & H)%bind_Ok.
  apply bind_Ok in H as (title & _ & H).
  apply bind_Ok in H as (description & _ & H).
  by apply bind_Ok in H as (keywords & _ & [= <-]).
Qed.

(** X13.  What ingestion stores, exact lookup finds: after a re-ingest in
    which nothing was raised, asking [get_document] for the path of any
    document of the parser pass returns the page of that very document, with
    its title, path, category, type, keywords and body, and never the "not
    found" message. *)
Theorem ingested_document_is_found (cfg : Config) (rt : Runtime)
    (faults : Faults) (files : list SourceFile) (now : string)
    (st st1 : Store) (d : Document.t) :
  (∀ s, faults s ≠ Some FileNotFoundError) →
  should_reingest rt st (Some files) = true →
  ingest_graphql_docs cfg rt faults (Some files) now st = (Ok tt, st1) →
  d ∈ (parse_all cfg rt files).1.1 →
  get_document st1 (Document.file_path d)
  = Ok (format_document (doc_record rt d))
  ∧ DocRow.file_path (doc_record rt d) = Document.file_path d
  ∧ is_substring ("**Path:** " +:+ Document.file_path d)
      (format_document (doc_record rt d)).
Proof.
  intros Hf Hgo Hrun Hd.
  destruct (ingest_run_Ok cfg rt faults files now st st1 Hf Hgo Hrun)
    as [Hnd ->].
  pose proof (parse_files_spec cfg rt (walk_directory files)) as (_ & Hdocs & _).
  fold (parse_all cfg rt files) in Hdocs.
  set (docs := (parse_all cfg rt files).1.1) in *.
  split; [|split; [done|]].
  - eapply get_document_found; [reflexivity|].
    apply filter_singleton.
    + apply (NoDup_fmap_1 DocRow.id). by rewrite <- list_fmap_compose.
    + by apply list_elem_of_fmap_2.
    + apply String.eqb_refl.
    + intros r (d' & -> & Hd')%list_elem_of_fmap Hpath.
      apply String.eqb_eq in Hpath. simpl in Hpath. f_equal.
      apply (NoDup_fmap_1 Document.id) in Hnd as Hnd'.
      assert (Document.id d' = Document.id d) as Hid.
      { apply Hdocs in Hd as (f & _ & ->%parse_file_key).
        apply Hdocs in Hd' as (f' & _ & ->%parse_file_key).
        by rewrite Hpath. }
      clear -Hnd Hd Hd' Hid.
      induction docs as [|x docs IH]; [by apply elem_of_nil in Hd|].
      rewrite fmap_cons in Hnd. apply NoDup_cons in Hnd as [Hx Hnd].
      apply elem_of_cons in Hd as [->|Hd];
        apply elem_of_cons in Hd' as [->|Hd']; try done.
      * exfalso. apply Hx. rewrite <- Hid. by apply list_elem_of_fmap_2.
      * exfalso. apply Hx. rewrite Hid. by apply list_elem_of_fmap_2.
      * by apply IH.
  - unfold format_document.
    apply join_contains. rewrite !elem_of_app, !elem_of_cons. left. auto.
Qed.

Lemma ingested_document_is_found_witness :
  ∃ d,
    d ∈ (parse_all default_config sample_runtime sample_corpus).1.1
    ∧ Document.file_path d = "usage/caching.md"
    ∧ get_document sample_db "usage/caching.md"
      = Ok (format_document (doc_record sample_runtime d))
    ∧ is_substring ("**Path:** " +:+ "usage/caching.md")
        (format_document (doc_record sample_runtime d)).
Proof.
  pose (d := default (Document.mk "" "" "" None [] "" None "" "" [] 0 "")
               ((parse_all default_config sample_runtime sample_corpus).1.1
                  !! 3%nat)).
  assert (d ∈ (parse_all default_config sample_runtime sample_corpus).1.1)
    as Hd.
  { vm_compute. do 3 (apply elem_of_cons; right). apply elem_of_cons. by left. }
  destruct (ingested_document_is_found default_config sample_runtime
              no_faults sample_corpus "now" empty_store sample_db d)
    as (Hget & _ & Hsub); try done.
  exists d. repeat split; try done.
Defined.

Lemma filter_if_sublist {A} arg keep (l : list A) :
  filter_if arg keep l `sublist_of` l.
Proof.
  unfold filter_if. destruct arg as [v|]; [|done].
  destruct (Py.nonempty v); [|done].
  induction l as [|x l IH]; simpl; [done|].
  destruct (keep v x); by constructor.
Qed.

Lemma Forall_filter_if_given {A} (v : string) keep (l : list A) :
  v ≠ "" → Forall (λ x, keep v x = true) (filter_if (Some v) keep l).
Proof.
  intros Hv. unfold filter_if. rewrite nonempty_true by done.
  apply Forall_filter_true.
Qed.

(** X14.  Keyword search hands back a selection of what the full-text engine
    returned for the queries joined by OR, fetched with the limit
    [DB_TOP_K * SEARCH_RESULT_MULTIPLIER], in the engine's order: rows are
    neither added nor reordered, and rows beyond the fetched ones are never
    considered.  A subcategory filter leaves only documents of that
    subcategory, a content-type filter only documents of that type; without
    any filter the result is the engine's list cut at [DB_TOP_K]. *)
Theorem search_results_are_filtered_hits (cfg : Config)
    (fts_search : list DocRow.t → string → Z → result (list DocRow.t))
    (db : Store) (queries : list string)
    (category subcategory content_type : option string)
    (results : list DocRow.t) :
  search_results cfg fts_search db queries category subcategory content_type
  = Ok results →
  ∃ rows hits,
    t_documents db = Some rows
    ∧ fts_search rows (Py.join " OR " ((λ q, "(" +:+ q +:+ ")") <$> queries))
        (DB_TOP_K cfg * SEARCH_RESULT_MULTIPLIER cfg) = Ok hits
    ∧ results `sublist_of` hits
    ∧ (∀ s, subcategory = Some s → s ≠ "" →
            Forall (λ r, DocRow.subcategory r = Some s) results)
    ∧ (∀ t, content_type = Some t → t ≠ "" →
            Forall (λ r, DocRow.content_type r = t) results)
    ∧ (category = None → subcategory = None → content_type = None →
       results = Py.slice_to (DB_TOP_K cfg) hits).
Proof.
  unfold search_results.
  destruct (t_documents db) as [rows|]; [|discriminate].
  destruct (t_documents_fts db); [|discriminate].
  intros (hits & Hhits & [= <-])%bind_Ok.
  exists rows, hits. split; [done|]. split; [done|]. repeat split.
  - etransitivity; [apply slice_to_sublist|].
    etransitivity; [apply filter_if_sublist|].
    etransitivity; apply filter_if_sublist.
  - intros s -> Hs. eapply sublist_Forall; [apply slice_to_sublist|].
    apply Forall_filter_if.
    eapply Forall_impl; [by apply Forall_filter_if_given|].
    intros r Hr. by apply bool_decide_eq_true in Hr.
  - intros t -> Ht. eapply sublist_Forall; [apply slice_to_sublist|].
    eapply Forall_impl; [by apply Forall_filter_if_given|].
    intros r. apply String.eqb_eq.
  - by intros -> -> ->.
Qed.

Lemma search_results_are_filtered_hits_witness :
  ∃ results rows hits,
    search_results small_config every_row_hits sample_db ["cart"]
      None (Some "products") (Some "schema") = Ok results
    ∧ t_documents sample_db = Some rows
    ∧ every_row_hits rows
        (Py.join " OR " ((λ q, "(" +:+ q +:+ ")") <$> ["cart"]))
        (DB_TOP_K small_config * SEARCH_RESULT_MULTIPLIER small_config)
      = Ok hits
    ∧ results `sublist_of` hits
    ∧ Forall (λ r, DocRow.subcategory r = Some "products") results
    ∧ Forall (λ r, DocRow.content_type r = "schema") results.
Proof.
  destruct (search_results_are_filtered_hits small_config every_row_hits
              sample_db ["cart"] None (Some "products") (Some "schema")
              (default []
                 (match search_results small_config every_row_hits sample_db
                          ["cart"] None (Some "products") (Some "schema") with
                  | Ok l => Some l
                  | Raise _ => None
                  end)))
    as (rows & hits & Hrows & Hhits & Hsub & Hs & Ht & _).
  { vm_compute. reflexivity. }
  eexists _, rows, hits. split; [vm_compute; reflexivity|].
  repeat split; try done.
  - by apply (Hs "products").
  - by apply (Ht "schema").
Defined.

(** X15.  On a store whose documents table exists, exact lookup and
    related-document discovery always return a text, whatever the path: for a
    path no row has, discovery answers "Document not found" too.  When the
    table does not exist, both raise the database's error. *)
Theorem lookups_return_on_stored_corpus (rt : Runtime) (db : Store)
    (file_path : string) :
  (∀ rows, t_documents db = Some rows →
     (∃ text, get_document db file_path = Ok text)
     ∧ (∃ text, get_related_documents rt db file_path = Ok text)
     ∧ ((∀ r, r ∈ rows → DocRow.file_path r ≠ file_path) →
        get_related_documents rt db file_path
        = Ok ("Document not found: " +:+ file_path)))
  ∧ (t_documents db = None →
     get_document db file_path = Raise (OtherError "OperationalError")
     ∧ get_related_documents rt db file_path
       = Raise (OtherError "OperationalError")).
Proof.
  split.
  - intros rows Hrows. split; [|split].
    + unfold get_document. rewrite (select_documents_stored db rows Hrows).
      simpl. destruct (List.filter _ rows); simpl; eauto.
    + unfold get_related_documents, related_documents.
      rewrite (select_documents_stored db rows Hrows). simpl.
      destruct (List.filter (by_file_path file_path) rows) as [|source ?];
        simpl; [eauto|].
      destruct (related_by_category_stored db rows Hrows source file_path)
        as (by_category & -> & _).
      destruct (keyword_loop_stored db rows Hrows
                  (take 3 (set_list (set_order rt) (DocRow.keywords source)))
                  file_path) as (by_keywords & Hkw & _).
      unfold related_by_keywords. rewrite Hkw. simpl.
      destruct (combine_related by_category by_keywords); eauto.
    + intros Hnone. unfold get_related_documents, related_documents.
      rewrite (select_documents_stored db rows Hrows). simpl.
      rewrite filter_none; [done|].
      intros r Hr. apply String.eqb_neq. by apply Hnone.
  - intros Hnone. unfold get_document, get_related_documents,
      related_documents, select_documents. by rewrite Hnone.
Qed.














Lemma keyword_loop_length db keywords file_path by_keywords :
  keyword_loop db keywords file_path = Ok by_keywords →
  (length by_keywords ≤ 3 * length keywords)%nat.
Proof.
  revert by_keywords. induction keywords as [|k keywords IH]; simpl.
  - intros ? [= <-]. done.
  - intros by_keywords (matches & Hm & H)%bind_Ok.
    apply bind_Ok in H as (others & Ho & [= <-]).
    specialize (IH _ Ho). unfold keyword_matches in Hm.
    apply bind_Ok in Hm as (found & _ & [= <-]).
    rewrite length_app. pose proof (firstn_le_length 3 found). lia.
Qed.

(** X17.  The two branches are bounded: the category branch returns at most
    five rows and the keyword branch at most nine, three for each of at most
    three keywords.  A source document without keywords gets no keyword
    matches at all, so whatever is returned for it comes from the category
    branch and has its category. *)
Theorem related_branches_bounded (rt : Runtime) (db : Store)
    (file_path : string) (source : DocRow.t) (all_related : list DocRow.t) :
  related_documents rt db file_path = Ok (Some (source, all_related)) →
  ∃ by_category by_keywords,
    related_by_category db source file_path = Ok by_category
    ∧ related_by_keywords rt db source file_path = Ok by_keywords
    ∧ (length by_category ≤ 5)%nat
    ∧ (length by_keywords ≤ 9)%nat
    ∧ (DocRow.keywords source = [] →
       by_keywords = []
       ∧ all_related `sublist_of` by_category
       ∧ Forall (λ d, DocRow.category d = DocRow.category source)
           all_related).
Proof.
  unfold related_documents. intros (found & Hfound & H)%bind_Ok.
  destruct (next_row found) as [source'|[]]; try discriminate.
  apply bind_Ok in H as (by_category & Hcat & H).
  apply bind_Ok in H as (by_keywords & Hkw & [= -> <-]).
  exists by_category, by_keywords. split; [done|]. split; [done|].
  assert (∃ rows, t_documents db = Some rows) as [rows Hrows].
  { unfold select_documents in Hfound. destruct (t_documents db); [eauto|done]. }
  destruct (related_by_category_stored db rows Hrows source file_path)
    as (l & Hl & _ & Hsame).
  rewrite Hcat in Hl. injection Hl as <-.
  split; [|split].
  - unfold related_by_category in Hcat.
    apply bind_Ok in Hcat as (sel & _ & [= <-]). apply firstn_le_length.
  - unfold related_by_keywords in Hkw.
    apply keyword_loop_length in Hkw.
    pose proof (firstn_le_length 3
                  (set_list (set_order rt) (DocRow.keywords source))).
    lia.
  - intros Hnone. unfold related_by_keywords in Hkw.
    rewrite Hnone in Hkw.
    assert (set_list (set_order rt) [] = []) as Hempty.
    { apply Permutation_nil_r. apply (set_list_perm (set_order rt) []). }
    rewrite Hempty in Hkw. injection Hkw as <-.
    assert (combine_related by_category [] `sublist_of` by_category) as Hsub.
    { unfold combine_related. rewrite app_nil_r.
      etransitivity; [apply sublist_take | apply dedup_loop_sublist]. }
    split; [done|]. split; [done|]. by eapply sublist_Forall.
Qed.

Lemma related_branches_bounded_witness :
  ∃ source all_related by_category by_keywords,
    related_documents sample_runtime sample_db
      "schema/products/queries/categories.md"
    = Ok (Some (source, all_related))
    ∧ DocRow.keywords source = []
    ∧ related_by_category sample_db source
        "schema/products/queries/categories.md" = Ok by_category
    ∧ related_by_keywords sample_runtime sample_db source
        "schema/products/queries/categories.md" = Ok by_keywords
    ∧ (length by_category ≤ 5)%nat
    ∧ (length by_keywords ≤ 9)%nat
    ∧ by_keywords = []
    ∧ all_related `sublist_of` by_category.
Proof.
  eexists _, _. 
  match goal with
  | |- ∃ _ _, related_documents ?rt ?db ?p = Ok (Some (?s, ?a)) ∧ _ =>
      assert (related_documents rt db p = Ok (Some (s, a))) as Hrun
        by (vm_compute; reflexivity);
      destruct (related_branches_bounded rt db p s a Hrun)
        as (c & k & Hc & Hk & Hlc & Hlk & Hnone)
  end.
  exists c, k. destruct Hnone as (-> & Hsub & _); [reflexivity|].
  repeat split; try done.
Defined.
